(** * MultiChannelMRIDataset: the forward-simulation pipeline of
      deepinpy/forwards/mcmri/dataset.py

    The development embeds the dataset class of [dataset.py] (the storage
    readers [load_data] and [load_data_ksp], the forward operator
    [_sim_data], [_load_data] and [__getitem__]) and proves the properties
    of the specification about it.

    Numbers.  Python floats and numpy complex numbers are idealised as exact
    numbers: a real is an element of Q(sqrt 2) and a complex number a pair of
    reals, so that the constants of the code ([np.sqrt(2)], [1j]) exist and
    every definition computes.  Rounding is not modelled; the precision of
    an array is carried by its [dtype] tag only.

    Arrays.  A numpy array is a dtype, a shape and its row-major buffer.
    Indexing, [None]-axis insertion, broadcasting, [squeeze], [sum] and
    [astype] follow numpy, and raise the exception numpy raises.

    Helpers that the repository imports but that are not part of the
    sources at hand ([fftmod], [fft2uc], [ifft2uc] of deepinpy.utils.utils)
    and the external NUFFT operator of mrinufft are an interface
    ([Helpers]); the theorems hold for every implementation of it. *)

From Stdlib Require Import String DecimalString DecimalNat ZArith QArith Qround Qcanon.
From Stdlib Require Import Lia Bool Arith List.
Import ListNotations.

Set Implicit Arguments.

Close Scope Qc_scope.
Close Scope Q_scope.
Open Scope nat_scope.

(* ================================================================== *)
(** ** Scalars: exact reals Q(sqrt 2) and complex numbers over them    *)
(* ================================================================== *)

Module Scalar.

Local Open Scope Qc_scope.

(** [rat + irr * sqrt 2] *)
Record real := mkReal { rat : Qc; irr : Qc }.

Definition r0 : real := mkReal 0 0.
Definition r1 : real := mkReal 1 0.
Definition r2 : real := mkReal (Q2Qc 2) 0.
Definition radd (x y : real) : real := mkReal (rat x + rat y) (irr x + irr y).
Definition ropp (x : real) : real := mkReal (- rat x) (- irr x).
Definition rsub (x y : real) : real := radd x (ropp y).
Definition rmul (x y : real) : real :=
  mkReal (rat x * rat y + Q2Qc 2 * (irr x * irr y)) (rat x * irr y + irr x * rat y).
(** 1 / (a + b sqrt 2) = (a - b sqrt 2) / (a^2 - 2 b^2) *)
Definition rinv (x : real) : real :=
  let n := rat x * rat x - Q2Qc 2 * (irr x * irr x) in
  mkReal (rat x / n) (- irr x / n).
Definition rdiv (x y : real) : real := rmul x (rinv y).
(** [np.sqrt(2)] *)
Definition sqrt2 : real := mkReal 0 1.
Definition of_Z (z : Z) : real := mkReal (Q2Qc (inject_Z z)) 0.

Record complex := mkC { re : real; im : real }.

Definition c0 : complex := mkC r0 r0.
Definition c1 : complex := mkC r1 r0.
(** [1j] *)
Definition cI : complex := mkC r0 r1.
Definition of_real (x : real) : complex := mkC x r0.
Definition cadd (z w : complex) : complex := mkC (radd (re z) (re w)) (radd (im z) (im w)).
Definition cmul (z w : complex) : complex :=
  mkC (rsub (rmul (re z) (re w)) (rmul (im z) (im w)))
      (radd (rmul (re z) (im w)) (rmul (im z) (re w))).
Definition copp (z : complex) : complex := mkC (ropp (re z)) (ropp (im z)).
Definition cconj (z : complex) : complex := mkC (re z) (ropp (im z)).
Definition cZ (z : Z) : complex := of_real (of_Z z).

Definition real_eqb (x y : real) : bool :=
  Qc_eq_bool (rat x) (rat y) && Qc_eq_bool (irr x) (irr y).
Definition complex_eqb (z w : complex) : bool :=
  real_eqb (re z) (re w) && real_eqb (im z) (im w).

End Scalar.
Export Scalar.

(* ================================================================== *)
(** ** Exceptions and the result type                                  *)
(* ================================================================== *)

(** The Python exceptions the modelled code can raise. *)
Inductive exn : Type :=
| KeyError (key : string)        (* h5py: dataset name absent *)
| IndexError                     (* index out of range, too many indices *)
| ValueError                     (* shapes do not broadcast, bad squeeze *)
| TypeError                      (* arithmetic on None *)
| AxisError                      (* np.sum over an axis the array lacks *)
| AssertionError (msg : string)
| UnboundLocalError              (* a local read before assignment *)
| HelperError.                   (* raised inside an imported helper *)

Inductive res (A : Type) : Type :=
| Ok (a : A)
| Err (e : exn).
Arguments Ok {A} a.
Arguments Err {A} e.

Definition rbind {A B} (r : res A) (k : A -> res B) : res B :=
  match r with Ok a => k a | Err e => Err e end.

Declare Scope res_scope.
Delimit Scope res_scope with res.
Notation "'try' x <- e ; k" := (rbind e (fun x => k))
  (at level 10, x pattern, e at level 100, k at level 200) : res_scope.
Open Scope res_scope.

Definition rmap {A B} (f : A -> B) (r : res A) : res B :=
  try a <- r; Ok (f a).

(* ================================================================== *)
(** ** numpy arrays                                                    *)
(* ================================================================== *)

Inductive dtype : Type := float32 | float64 | complex64 | complex128.

Definition is_complex (d : dtype) : bool :=
  match d with complex64 | complex128 => true | _ => false end.
Definition is_double (d : dtype) : bool :=
  match d with float64 | complex128 => true | _ => false end.

(** The dtype of [a op b] for two arrays (numpy's result_type on these
    four dtypes): complex if one is, double precision if one is. *)
Definition result_type (a b : dtype) : dtype :=
  match is_complex a || is_complex b, is_double a || is_double b with
  | true, true => complex128
  | true, false => complex64
  | false, true => float64
  | false, false => float32
  end.

Record ndarray := mkArr { adtype : dtype; shape : list nat; data : list complex }.

Definition prod (s : list nat) : nat := fold_right Nat.mul 1 s.

(** The buffer has one entry per index of the shape. *)
Definition wf (a : ndarray) : Prop := length (data a) = prod (shape a).

Definition ndim (a : ndarray) : nat := length (shape a).

(** Row-major offset of a multi-index. *)
Fixpoint flat_index (s idx : list nat) : nat :=
  match s, idx with
  | _ :: s', i :: idx' => i * prod s' + flat_index s' idx'
  | _, _ => 0
  end.

(** All multi-indices of a shape, in row-major order. *)
Fixpoint indices (s : list nat) : list (list nat) :=
  match s with
  | [] => [[]]
  | n :: s' => flat_map (fun i => map (cons i) (indices s')) (seq 0 n)
  end.

(** [idx] is a valid multi-index of shape [s]. *)
Fixpoint in_range (s idx : list nat) : Prop :=
  match s, idx with
  | [], [] => True
  | n :: s', i :: idx' => i < n /\ in_range s' idx'
  | _, _ => False
  end.

Definition get (a : ndarray) (idx : list nat) : complex :=
  nth (flat_index (shape a) idx) (data a) c0.

Definition tabulate (d : dtype) (s : list nat) (f : list nat -> complex) : ndarray :=
  mkArr d s (map f (indices s)).

Definition amap (f : complex -> complex) (a : ndarray) : ndarray :=
  mkArr (adtype a) (shape a) (map f (data a)).

(** *** Broadcasting *)

Definition bdim (a b : nat) : option nat :=
  if a =? b then Some a
  else if a =? 1 then Some b
  else if b =? 1 then Some a
  else None.

(** Shapes are aligned at their last axis; the arguments are reversed. *)
Fixpoint bshape_rev (s t : list nat) : option (list nat) :=
  match s, t with
  | [], _ => Some t
  | _, [] => Some s
  | a :: s', b :: t' =>
      match bdim a b, bshape_rev s' t' with
      | Some d, Some r => Some (d :: r)
      | _, _ => None
      end
  end.

Definition broadcast_shapes (s t : list nat) : option (list nat) :=
  option_map (@rev nat) (bshape_rev (rev s) (rev t)).

(** The index of an operand of shape [s] that an index of the broadcast
    result reads: the trailing [length s] axes, an axis of length 1 read
    at 0. *)
Fixpoint clamp (s idx : list nat) : list nat :=
  match s, idx with
  | d :: s', i :: idx' => (if d =? 1 then 0 else i) :: clamp s' idx'
  | _, _ => []
  end.

Definition proj (s idx : list nat) : list nat :=
  clamp s (skipn (length idx - length s) idx).

(** [a op b] elementwise with broadcasting; ValueError when the shapes do
    not broadcast. *)
Definition zip_with (f : complex -> complex -> complex) (a b : ndarray) : res ndarray :=
  match broadcast_shapes (shape a) (shape b) with
  | Some s =>
      Ok (tabulate (result_type (adtype a) (adtype b)) s
            (fun idx => f (get a (proj (shape a) idx)) (get b (proj (shape b) idx))))
  | None => Err ValueError
  end.

Definition mul := zip_with cmul.
Definition add := zip_with cadd.

(** [c * a] for a Python/numpy real scalar [c]: the dtype of the array is
    kept. *)
Definition scale (c : real) (a : ndarray) : ndarray := amap (cmul (of_real c)) a.

(** [np.conj(a)] *)
Definition conj (a : ndarray) : ndarray := amap cconj a.

(** [a[None, ...]] *)
Definition expand_front (a : ndarray) : ndarray :=
  mkArr (adtype a) (1 :: shape a) (data a).

(** [a[:, None, :, :]]: a new axis at position 1; IndexError (too many
    indices) when the array has fewer than three axes. *)
Definition expand_axis1 (a : ndarray) : res ndarray :=
  match shape a with
  | n :: (_ :: _ :: _) as rest => Ok (mkArr (adtype a) (n :: 1 :: rest) (data a))
  | _ => Err IndexError
  end.

(** [a[i, ...]] for an integer [i]. *)
Definition index0 (i : nat) (a : ndarray) : res ndarray :=
  match shape a with
  | n :: rest =>
      if i <? n
      then Ok (mkArr (adtype a) rest (firstn (prod rest) (skipn (i * prod rest) (data a))))
      else Err IndexError
  | [] => Err IndexError
  end.

(** [a.shape[0]] and [a.shape[1]] *)
Definition shape0 (a : ndarray) : res nat :=
  match shape a with n :: _ => Ok n | [] => Err IndexError end.
Definition shape1 (a : ndarray) : res nat :=
  match shape a with _ :: c :: _ => Ok c | _ => Err IndexError end.

(** [a.shape[-2:]] *)
Definition last2 (s : list nat) : list nat := skipn (length s - 2) s.

(** [a.squeeze(0)] *)
Definition squeeze0 (a : ndarray) : res ndarray :=
  match shape a with
  | 1 :: rest => Ok (mkArr (adtype a) rest (data a))
  | _ => Err ValueError
  end.

(** [np.ones(shape)] *)
Definition ones (s : list nat) : ndarray := mkArr float64 s (repeat c1 (prod s)).

(** [a.astype(d)] and [np.array(a, dtype=d)]: casting to a real dtype
    keeps the real part. *)
Definition astype (d : dtype) (a : ndarray) : ndarray :=
  mkArr d (shape a)
        (if is_complex d then data a else map (fun z => of_real (re z)) (data a)).

(** [np.sum(a, axis=1)] *)
Definition csum (l : list complex) : complex := fold_left cadd l c0.

Definition sum_axis1 (a : ndarray) : res ndarray :=
  match shape a with
  | n :: c :: rest =>
      Ok (tabulate (adtype a) (n :: rest)
            (fun idx => match idx with
                        | i :: idx' => csum (map (fun k => get a (i :: k :: idx')) (seq 0 c))
                        | [] => c0
                        end))
  | _ => Err AxisError
  end.

Definition list_eqb {A} (eqb : A -> A -> bool) : list A -> list A -> bool :=
  fix go l m :=
    match l, m with
    | [], [] => true
    | x :: l', y :: m' => eqb x y && go l' m'
    | _, _ => false
    end.

Definition dtype_eqb (a b : dtype) : bool :=
  match a, b with
  | float32, float32 | float64, float64
  | complex64, complex64 | complex128, complex128 => true
  | _, _ => false
  end.

Definition array_eqb (a b : ndarray) : bool :=
  dtype_eqb (adtype a) (adtype b)
  && list_eqb Nat.eqb (shape a) (shape b)
  && list_eqb complex_eqb (data a) (data b).

(* ================================================================== *)
(** ** The persisted stores, randomness and the imported helpers       *)
(* ================================================================== *)

(** An HDF5 file opened for reading: its datasets by name.  A path of the
    Python code stands for the contents of the file it names; the stores
    are read-only. *)
Definition h5file := list (string * ndarray).

Fixpoint lookup (k : string) (F : h5file) : option ndarray :=
  match F with
  | [] => None
  | (k', a) :: F' => if String.eqb k k' then Some a else lookup k F'
  end.

(** [k in F.keys()] *)
Definition has_key (k : string) (F : h5file) : bool :=
  match lookup k F with Some _ => true | None => false end.

(** [F[k]] *)
Definition h5_get (F : h5file) (k : string) : res ndarray :=
  match lookup k F with Some a => Ok a | None => Err (KeyError k) end.

(** [np.array(F[k][idx, ...], dtype=d)] *)
Definition h5_read (F : h5file) (k : string) (idx : nat) (d : dtype) : res ndarray :=
  try ds <- h5_get F k;
  try a <- index0 idx ds;
  Ok (astype d a).

(** The state of numpy's global generator: the standard normal samples it
    will deliver, and how many have been drawn. *)
Record rng := mkRng { drawn : nat; tape : nat -> real }.

(** Computations that draw random numbers and may raise. *)
Definition M (A : Type) : Type := rng -> res (A * rng).

Definition ret {A} (a : A) : M A := fun g => Ok (a, g).
Definition bind {A B} (m : M A) (k : A -> M B) : M B :=
  fun g => match m g with Ok (a, g') => k a g' | Err e => Err e end.
Definition lift {A} (r : res A) : M A :=
  fun g => match r with Ok a => Ok (a, g) | Err e => Err e end.
Definition raise {A} (e : exn) : M A := fun _ => Err e.

Notation "'do' x <- e ; k" := (bind e (fun x => k))
  (at level 10, x pattern, e at level 100, k at level 200) : res_scope.

(** The value a computation returns, the generator state dropped. *)
Definition value {A} (r : res (A * rng)) : res A := rmap fst r.

(** [np.random.randn] at the shape [s] *)
Definition randn (s : list nat) : M ndarray :=
  fun g =>
    Ok (mkArr float64 s (map (fun k => of_real (tape g (drawn g + k))) (seq 0 (prod s))),
        mkRng (drawn g + prod s) (tape g)).

(** [z * a] for a Python complex scalar [z]. *)
Definition cscale (z : complex) (a : ndarray) : ndarray :=
  mkArr (result_type (adtype a) complex64) (shape a) (map (cmul z) (data a)).

(** [randn + 1j * randn], both at the shape [s] *)
Definition complex_randn (s : list nat) : M ndarray :=
  do a <- randn s;
  do b <- randn s;
  lift (add a (cscale cI b)).

(** What dataset.py imports: [fftmod], [fft2uc] and [ifft2uc] from
    deepinpy.utils.utils, and from mrinufft [get_operator], which maps a
    backend name to the constructor of a non-uniform Fourier operator
    (called with a trajectory, a shape and [n_coils]), and the method [op]
    of the operator. *)
Class Helpers : Type := {
  fftmod : ndarray -> res ndarray;
  fft2uc : ndarray -> res ndarray;
  ifft2uc : ndarray -> res ndarray;
  fourier_operator : Type;
  get_operator : string -> res (ndarray -> list nat -> nat -> res fourier_operator);
  op : fourier_operator -> ndarray -> res ndarray
}.

(* ================================================================== *)
(** ** Storage readers                                                 *)
(* ================================================================== *)

(** An argument that is an array or [None], used as an array. *)
Definition expect (a : option ndarray) : res ndarray :=
  match a with Some x => Ok x | None => Err TypeError end.

Definition is_none (a : option ndarray) : bool :=
  match a with Some _ => false | None => true end.

(** [load_data(idx, data_file, masks_file)]: imgs, maps, masks, noise,
    loss_masks. *)
Definition load_data (idx : nat) (data_file masks_file : h5file)
  : res (ndarray * ndarray * ndarray * option ndarray * ndarray) :=
  try imgs <- h5_read data_file "imgs" idx complex64;
  try maps <- h5_read data_file "maps" idx complex64;
  try masks <- h5_read masks_file "masks" idx float32;
  try loss_masks <- h5_read masks_file "loss_masks" idx float32;
  try noise <- (if has_key "noise" masks_file
                then rmap Some (h5_read masks_file "noise" idx complex64)
                else Ok None);
  (* special case for batch_size=1 *)
  if ndim masks =? 2
  then Ok (expand_front imgs, expand_front maps, expand_front masks,
           option_map expand_front noise, expand_front loss_masks)
  else Ok (imgs, maps, masks, noise, loss_masks).

(** ['mask_traj_{}'.format(idx)] *)
Definition mask_traj_key (idx : nat) : string :=
  "mask_traj_" ++ NilEmpty.string_of_uint (Nat.to_uint idx).

(** The mask [load_data_ksp] reads: the shared dataset at [idx], or the
    per-index trajectory. *)
Definition read_masks_ksp (idx : nat) (masks_file : h5file) : res ndarray :=
  if has_key "masks" masks_file
  then h5_read masks_file "masks" idx float32
  else rmap (astype float32) (h5_get masks_file (mask_traj_key idx)).

(** [load_data_ksp(idx, data_file, masks_file)]: imgs, maps, masks, ksp,
    noise, loss_masks. *)
Definition load_data_ksp (idx : nat) (data_file masks_file : h5file)
  : res (ndarray * ndarray * ndarray * ndarray * option ndarray * ndarray) :=
  try imgs <- h5_read data_file "imgs" idx complex64;
  try maps <- h5_read data_file "maps" idx complex64;
  try ksp <- h5_read data_file "ksp" idx complex64;
  try masks <- read_masks_ksp idx masks_file;
  try loss_masks <- h5_read masks_file "loss_masks" idx float32;
  try noise <- (if has_key "noise" masks_file
                then rmap Some (h5_read masks_file "noise" idx float32)
                else Ok None);
  (* special case for batch_size=1 *)
  if ndim masks =? 2
  then Ok (expand_front imgs, expand_front maps, expand_front masks,
           expand_front ksp, option_map expand_front noise, expand_front loss_masks)
  else Ok (imgs, maps, masks, ksp, noise, loss_masks).

(* ================================================================== *)
(** ** class MultiChannelMRIDataset                                    *)
(* ================================================================== *)

(** The attributes [__init__] sets.  The attributes of the disabled disk
    cache ([preload], [id], [cache_data]) play no part in any method
    below and are left out. *)
Record MultiChannelMRIDataset := mkDataset {
  data_file : h5file;
  masks_file : h5file;
  stdev : real;
  adjoint_data : bool;
  gen_masks : bool;
  max_data_sets : nat;
  ds_shape : list nat;
  fully_sampled : bool;
  data_idx : option nat;
  scale_data : bool;
  inverse_crime : bool;
  noncart : bool;
  num_data_sets : nat
}.

(** [_len]: the leading dimension and the shape of [imgs]. *)
Definition _len (data_file : h5file) : res (nat * list nat) :=
  try imgs <- h5_get data_file "imgs";
  try n <- shape0 imgs;
  Ok (n, shape imgs).

Definition __init__ (data_file masks_file : h5file) (stdev : real)
    (num_data_sets : option nat) (adjoint_data gen_masks scale_data fully_sampled : bool)
    (data_idx : option nat) (inverse_crime noncart : bool)
  : res MultiChannelMRIDataset :=
  try (max_data_sets, shp) <- _len data_file;
  let n :=
    match data_idx with
    | Some _ => 1
    | None =>
        match num_data_sets with
        | None => max_data_sets
        | Some k => Nat.min k max_data_sets
        end
    end in
  Ok (mkDataset data_file masks_file stdev adjoint_data gen_masks max_data_sets shp
                fully_sampled data_idx scale_data inverse_crime noncart n).

Definition __len__ (self : MultiChannelMRIDataset) : nat := num_data_sets self.

(** [assert b, msg] *)
Definition py_assert (b : bool) (msg : string) : res unit :=
  if b then Ok tt else Err (AssertionError msg).

Section Methods.

Context {H : Helpers}.

(** [1 / np.sqrt(2) * self.stdev] *)
Definition noise_scale (self : MultiChannelMRIDataset) : real :=
  rmul (rdiv r1 sqrt2) (stdev self).

(** [noise] as given, or drawn at the shape [s] when it is [None]. *)
Definition noise_or_randn (noise : option ndarray) (s : list nat) : M ndarray :=
  match noise with
  | None => complex_randn s
  | Some n => ret n
  end.

(** [_sim_data], first block (lines 141-161): the simulated measurement. *)
Definition sim_measurement (self : MultiChannelMRIDataset)
    (imgs maps masks : ndarray) (noise ksp : option ndarray) : M ndarray :=
  if noncart self then
    do new_op <- lift (get_operator "gpunufft");
    do m0 <- lift (index0 0 masks);
    do n_coils <- lift (shape1 maps);
    do fourier_op <- lift (new_op m0 (last2 (shape maps)) n_coils);
    do k <- lift (expect ksp);
    do per_ch_img <- lift (ifft2uc k);
    do out <- lift (op fourier_op per_ch_img);
    let out := if ndim out =? 2 then expand_front out else out in
    do noise <- noise_or_randn noise (shape out);
    ret out
  else
    (* N, nc, nx, ny *)
    do noise <- noise_or_randn noise (shape maps);
    if inverse_crime self && is_none ksp then
      lift (try m <- expand_axis1 masks;
            try i <- expand_axis1 imgs;
            try p <- mul i maps;
            try f <- fft2uc p;
            try s <- add f (scale (noise_scale self) noise);
            mul m s)
    else
      if noncart self then
        (* out = out + 1 / np.sqrt(2) * self.stdev * noise, [out] unbound *)
        raise UnboundLocalError
      else
        lift (try k <- expect ksp;
              try s <- add k (scale (noise_scale self) noise);
              mul (expand_front masks) s).

(** The non-Cartesian measurement in the words of the specification, its
    noise term left out: the non-uniform Fourier operator built from the
    first mask, the spatial shape and the coil count of the maps, applied
    to the inverse transform of the k-space, a rank-2 result promoted. *)
Definition nufft_of_first_trajectory (maps masks : ndarray) (ksp : option ndarray)
  : res ndarray :=
  try new_op <- get_operator "gpunufft";
  try m0 <- index0 0 masks;
  try n_coils <- shape1 maps;
  try fourier_op <- new_op m0 (last2 (shape maps)) n_coils;
  try k <- expect ksp;
  try per_ch_img <- ifft2uc k;
  try out <- op fourier_op per_ch_img;
  Ok (if ndim out =? 2 then expand_front out else out).

(** [_sim_data], second block (lines 162-166): the output transform. *)
Definition sim_output (self : MultiChannelMRIDataset) (maps out : ndarray) : res ndarray :=
  if negb (adjoint_data self) && negb (noncart self) then
    fftmod out
  else if adjoint_data self && negb (noncart self) then
    let cm := conj maps in
    try g <- ifft2uc out;
    try p <- mul cm g;
    sum_axis1 p
  else Ok out.

Definition _sim_data (self : MultiChannelMRIDataset)
    (imgs maps masks : ndarray) (noise ksp : option ndarray) : M ndarray :=
  do out <- sim_measurement self imgs maps masks noise ksp;
  lift (sim_output self maps out).

(** The storage read of [_load_data] (lines 115-119); [ksp] stays unbound
    in the inverse-crime case. *)
Definition load_arrays (self : MultiChannelMRIDataset) (idx : nat)
  : res (ndarray * ndarray * ndarray * option ndarray * option ndarray * ndarray) :=
  if inverse_crime self then
    try (imgs, maps, masks, noise, loss_masks) <-
      load_data idx (data_file self) (masks_file self);
    Ok (imgs, maps, masks, None, noise, loss_masks)
  else
    try (imgs, maps, masks, ksp, noise, loss_masks) <-
      load_data_ksp idx (data_file self) (masks_file self);
    Ok (imgs, maps, masks, Some ksp, noise, loss_masks).

(** The mask as read from the store, before the batch-of-one reshaping. *)
Definition stored_mask (self : MultiChannelMRIDataset) (idx : nat) : res ndarray :=
  if inverse_crime self
  then h5_read (masks_file self) "masks" idx float32
  else read_masks_ksp idx (masks_file self).

(** Lines 123-125, the scaling of [imgs] and [ksp] by the 99th percentile
    of the magnitude.  They follow [assert not self.scale_data] inside
    [if self.scale_data:] and are never run; they are not modelled. *)
Definition percentile_scaling : M unit := raise HelperError.

(** [_load_data]: imgs, maps, masks, out, loss_masks. *)
Definition _load_data (self : MultiChannelMRIDataset) (idx : nat)
  : M (ndarray * ndarray * ndarray * ndarray * ndarray) :=
  do (imgs, maps, masks, ksp, noise, loss_masks) <- lift (load_arrays self idx);
  do _ <- (if scale_data self then
             (* FIXME: batch mode *)
             do _ <- lift (py_assert (negb (scale_data self)) "SEE FIXME");
             percentile_scaling
           else ret tt);
  let masks := if fully_sampled self then ones (shape masks) else masks in
  do out <- (if inverse_crime self then
               do _ <- lift (py_assert (negb (noncart self)) "FIXME: forward sim of NUFFT");
               _sim_data self imgs maps masks noise None
             else
               _sim_data self imgs maps masks noise ksp);
  do maps <- (if negb (noncart self) then lift (fftmod maps) else ret maps);
  ret (imgs, maps, masks, out, loss_masks).

(** The dict [__getitem__] returns. *)
Record sample := mkSample {
  s_imgs : ndarray;
  s_maps : ndarray;
  s_masks : ndarray;
  s_loss_masks : ndarray;
  s_out : ndarray
}.

(** The index a call reads: [self.data_idx] when it is set. *)
Definition effective_idx (self : MultiChannelMRIDataset) (idx : nat) : nat :=
  match data_idx self with Some i => i | None => idx end.

Definition __getitem__ (self : MultiChannelMRIDataset) (idx : nat) : M (nat * sample) :=
  let idx := effective_idx self idx in
  do (imgs, maps, masks, out, loss_masks) <- _load_data self idx;
  do n <- lift (shape0 imgs);
  do (imgs, maps, masks, out, loss_masks) <-
    (if n =? 1 then
       lift (try imgs <- squeeze0 imgs;
             try maps <- squeeze0 maps;
             try masks <- squeeze0 masks;
             try out <- squeeze0 out;
             try loss_masks <- squeeze0 loss_masks;
             Ok (imgs, maps, masks, out, loss_masks))
     else ret (imgs, maps, masks, out, loss_masks));
  ret (idx, mkSample (astype complex64 imgs) (astype complex64 maps)
                     (astype float32 masks) (astype float32 loss_masks)
                     (astype complex64 out)).

End Methods.

(* ================================================================== *)
(** ** A reference implementation of the imported helpers              *)
(* ================================================================== *)

(** The theorems below hold for every [Helpers]; concrete runs need one.
    This one is exact on images whose two spatial extents divide 8, where
    the roots of unity and the unitary factor lie in Q(sqrt 2)(i). *)
Module Reference.

(** Modelled from the spec: [fftmod] of deepinpy.utils.utils, which is not
    among the sources.  The deterministic frequency-shift modulation: every
    other row and every other column is negated, then the whole array, so
    that the entry at [..., x, y] is multiplied by (-1)^(x+y+1). *)
Definition fftmod_sign (x y : nat) : complex :=
  if Nat.even (x + y) then copp c1 else c1.

Definition fftmod (a : ndarray) : res ndarray :=
  if 2 <=? ndim a then
    Ok (tabulate (adtype a) (shape a)
          (fun idx => cmul (fftmod_sign (nth 1 (rev idx) 0) (nth 0 (rev idx) 0)) (get a idx)))
  else Err IndexError.

(** exp(-2 pi i / 8) = (1 - i) / sqrt 2 *)
Definition zeta8 : complex :=
  mkC (rdiv r1 sqrt2) (ropp (rdiv r1 sqrt2)).

Fixpoint cpow (z : complex) (n : nat) : complex :=
  match n with 0 => c1 | S n' => cmul z (cpow z n') end.

Fixpoint rpow (x : real) (n : nat) : real :=
  match n with 0 => r1 | S n' => rmul x (rpow x n') end.

Definition supported (n : nat) : bool :=
  (n =? 1) || (n =? 2) || (n =? 4) || (n =? 8).

(** exp(-2 pi i m / n) for [n] dividing 8 *)
Definition root (n : nat) (m : Z) : complex :=
  cpow zeta8 ((8 / n) * Z.to_nat (m mod Z.of_nat n)).

(** The entry (k, j) of the centred DFT matrix of size [n], or of its
    inverse: the root at (k - n/2)(j - n/2). *)
Definition kernel (inverse : bool) (n k j : nat) : complex :=
  let c := Z.of_nat (n / 2) in
  let w := root n ((Z.of_nat k - c) * (Z.of_nat j - c)) in
  if inverse then cconj w else w.

(** 1 / sqrt (nx * ny) for a product that is a power of 2 *)
Definition unitary_factor (nx ny : nat) : real :=
  rpow (rdiv r1 sqrt2) (Nat.log2 (nx * ny)).

(** Modelled from the spec: [fft2uc] and [ifft2uc] of deepinpy.utils.utils,
    which are not among the sources.  The unitary, centred 2-D transform
    over the last two axes, applied to every leading index (per channel),
    and its inverse. *)
Definition dft2uc (inverse : bool) (a : ndarray) : res ndarray :=
  match rev (shape a) with
  | ny :: nx :: _ =>
      if supported nx && supported ny then
        Ok (tabulate (result_type (adtype a) complex64) (shape a)
              (fun idx =>
                 let pre := firstn (length idx - 2) idx in
                 let x := nth 1 (rev idx) 0 in
                 let y := nth 0 (rev idx) 0 in
                 cmul (of_real (unitary_factor nx ny))
                   (csum (flat_map
                            (fun j => map (fun k =>
                                 cmul (get a (pre ++ [j; k]))
                                      (cmul (kernel inverse nx x j) (kernel inverse ny y k)))
                               (seq 0 ny))
                            (seq 0 nx)))))
      else Err HelperError
  | _ => Err ValueError
  end.

Definition fft2uc : ndarray -> res ndarray := dft2uc false.
Definition ifft2uc : ndarray -> res ndarray := dft2uc true.

(** The integer a real array entry holds (a grid position). *)
Definition grid_pos (z : complex) : nat := Z.to_nat (Qfloor (this (rat (re z)))).

(** Modelled from the spec: the non-uniform Fourier operator of mrinufft,
    an external library.  It is parameterised by a trajectory, the spatial
    shape and the coil count, and maps a batch of per-channel images
    [B, C, Nx, Ny] to the samples of their Fourier transform at the
    trajectory's points: [C, K] for a batch of one, [B, C, K] otherwise.
    The reference operator takes a trajectory [K, 2] of grid positions. *)
Record fourier_operator := mkOp { trajectory : ndarray; img_shape : list nat; n_coils : nat }.

Definition new_operator (traj : ndarray) (shp : list nat) (nc : nat) : res fourier_operator :=
  match shape traj with
  | [_; 2] => Ok (mkOp traj shp nc)
  | _ => Err ValueError
  end.

Definition get_operator (backend : string)
  : res (ndarray -> list nat -> nat -> res fourier_operator) :=
  if String.eqb backend "gpunufft" then Ok new_operator else Err ValueError.

Definition op (F : fourier_operator) (img : ndarray) : res ndarray :=
  match shape img with
  | [b; c; nx; ny] =>
      if (c =? n_coils F) && list_eqb Nat.eqb [nx; ny] (img_shape F) then
        try f <- fft2uc img;
        let k := nth 0 (shape (trajectory F)) 0 in
        let at_ n ch p :=
          get f [n; ch; grid_pos (get (trajectory F) [p; 0]);
                        grid_pos (get (trajectory F) [p; 1])] in
        if b =? 1
        then Ok (tabulate complex64 [c; k]
                   (fun idx => at_ 0 (nth 0 idx 0) (nth 1 idx 0)))
        else Ok (tabulate complex64 [b; c; k]
                   (fun idx => at_ (nth 0 idx 0) (nth 1 idx 0) (nth 2 idx 0)))
      else Err ValueError
  | _ => Err ValueError
  end.

Definition helpers : Helpers :=
  Build_Helpers fftmod fft2uc ifft2uc get_operator op.

(** Small arrays for concrete runs. *)
Definition carr (s : list nat) (l : list Z) : ndarray := mkArr complex64 s (map cZ l).
Definition farr (s : list nat) (l : list Z) : ndarray := mkArr float32 s (map cZ l).

(** A generator whose samples are all [x]. *)
Definition const_rng (x : Z) : rng := mkRng 0 (fun _ => of_Z x).


(** A store of two samples, two coils, 2 x 2 images. *)
Definition data_store : h5file :=
  [ ("imgs"%string, carr [2; 2; 2] [1; 2; 3; 4; 5; 6; 7; 8]%Z);
    ("maps"%string, carr [2; 2; 2; 2] [1; 0; 2; 1; 1; 1; 0; 3; 2; 1; 1; 0; 1; 2; 1; 1]%Z);
    ("ksp"%string, carr [2; 2; 2; 2] [3; 1; 4; 1; 5; 9; 2; 6; 5; 3; 5; 8; 9; 7; 9; 3]%Z) ].

Definition mask_store : h5file :=
  [ ("masks"%string, farr [2; 2; 2] [1; 0; 1; 1; 0; 1; 1; 0]%Z);
    ("loss_masks"%string, farr [2; 2; 2] [0; 1; 0; 0; 1; 0; 0; 1]%Z) ].

Definition noise_store : h5file :=
  mask_store ++
  [ ("noise"%string, carr [2; 2; 2; 2] [1; 2; 0; 1; 3; 1; 1; 0; 0; 2; 1; 1; 2; 0; 1; 3]%Z) ].

(** Per-index trajectories of three grid points each, no [masks]. *)
Definition traj_store : h5file :=
  [ ("mask_traj_0"%string, farr [3; 2] [0; 0; 1; 1; 0; 1]%Z);
    ("mask_traj_1"%string, farr [3; 2] [1; 0; 1; 1; 0; 0]%Z);
    ("loss_masks"%string, farr [2; 2; 2] [0; 1; 0; 0; 1; 0; 0; 1]%Z) ].

(** A store whose samples carry a leading axis of length 1 of their own:
    one sample, stored as a batch of one 2 x 2 image with two coils. *)
Definition stacked_data_store : h5file :=
  [ ("imgs"%string, carr [1; 1; 2; 2] [1; 2; 3; 4]%Z);
    ("maps"%string, carr [1; 1; 2; 2; 2] [1; 0; 2; 1; 1; 1; 0; 3]%Z);
    ("ksp"%string, carr [1; 1; 2; 2; 2] [3; 1; 4; 1; 5; 9; 2; 6]%Z) ].

Definition stacked_mask_store : h5file :=
  [ ("masks"%string, farr [1; 1; 2; 2] [1; 0; 1; 1]%Z);
    ("loss_masks"%string, farr [1; 1; 2; 2] [0; 1; 0; 0]%Z);
    ("noise"%string, farr [1; 1; 2; 2; 2] [1; 2; 0; 1; 3; 1; 1; 0]%Z) ].

(** A store whose every entry is a pair of one-pixel samples with three
    coils: an index reads a batch of two. *)
Definition paired_data_store : h5file :=
  [ ("imgs"%string, carr [1; 2; 1; 1] [1; 1]%Z);
    ("maps"%string, carr [1; 2; 3; 1; 1] [1; 1; 1; 1; 1; 1]%Z);
    ("ksp"%string, carr [1; 2; 3; 1; 1] [1; 2; 3; 4; 5; 6]%Z) ].

Definition paired_mask_store : h5file :=
  [ ("masks"%string, farr [1; 2; 1; 1] [1; 0]%Z);
    ("loss_masks"%string, farr [1; 2; 1; 1] [1; 1]%Z);
    ("noise"%string, farr [1; 2; 3; 1; 1] [0; 0; 0; 0; 0; 0]%Z) ].

(** A dataset object with [stdev = 1], no fixed index and every sample of
    the store exposed. *)
Definition dataset_over (data_file masks_file : h5file)
    (adjoint_data scale_data fully_sampled inverse_crime noncart : bool)
  : MultiChannelMRIDataset :=
  let (n, shp) := match _len data_file with Ok x => x | Err _ => (0, []) end in
  mkDataset data_file masks_file r1 adjoint_data false n shp
            fully_sampled None scale_data inverse_crime noncart n.

Definition dataset := dataset_over data_store.

(** Batches of two samples of one pixel, with three coils and with two. *)
Definition imgs_2 : ndarray := carr [2; 1; 1] [1; 1]%Z.
Definition masks_2 : ndarray := farr [2; 1; 1] [1; 0]%Z.
Definition maps_2x3 : ndarray := carr [2; 3; 1; 1] [1; 1; 1; 1; 1; 1]%Z.
Definition ksp_2x3 : ndarray := carr [2; 3; 1; 1] [1; 2; 3; 4; 5; 6]%Z.
Definition noise_2x3 : ndarray := carr [2; 3; 1; 1] [0; 0; 0; 0; 0; 0]%Z.
Definition maps_2x2 : ndarray := carr [2; 2; 1; 1] [1; 1; 1; 1]%Z.
Definition ksp_2x2 : ndarray := carr [2; 2; 1; 1] [1; 2; 3; 4]%Z.
Definition noise_2x2 : ndarray := carr [2; 2; 1; 1] [0; 0; 0; 0]%Z.

(** One sample as [load_data_ksp] returns it (two coils, 2 x 2), a batch
    of two trajectories of three grid points that agree on the first, and
    a noise array of the shape of the non-Cartesian output. *)
Definition imgs_1 : ndarray := carr [1; 2; 2] [1; 2; 3; 4]%Z.
Definition maps_1 : ndarray := carr [1; 2; 2; 2] [1; 0; 2; 1; 1; 1; 0; 3]%Z.
Definition ksp_1 : ndarray := carr [1; 2; 2; 2] [3; 1; 4; 1; 5; 9; 2; 6]%Z.
Definition masks_1 : ndarray := farr [1; 2; 2] [1; 0; 1; 1]%Z.
Definition traj_a : ndarray := farr [2; 3; 2] [0; 0; 1; 1; 0; 1; 1; 0; 1; 1; 0; 0]%Z.
Definition traj_b : ndarray := farr [2; 3; 2] [0; 0; 1; 1; 0; 1; 0; 1; 0; 1; 1; 1]%Z.
Definition noise_nc : ndarray := carr [1; 2; 3] [1; 2; 3; 4; 5; 6]%Z.
Definition imgs_1' : ndarray := carr [1; 2; 2] [0; 5; 0; 7]%Z.
Definition maps_1' : ndarray := carr [1; 2; 2; 2] [2; 2; 0; 1; 0; 1; 1; 1]%Z.

End Reference.

(* ================================================================== *)
(** ** Well-formed stores and samples                                  *)
(* ================================================================== *)

(** The stores of the specification's scenario: [imgs] [M, Nx, Ny], [maps]
    and [ksp] [M, C, Nx, Ny], [masks] [M, Nx, Ny], [loss_masks] with [M]
    entries, and [noise], when present, [M, C, Nx, Ny].  The k-space is
    needed only when it is read. *)
Record cartesian_store (self : MultiChannelMRIDataset) (M C Nx Ny : nat) : Prop := {
  cs_imgs : exists a, lookup "imgs" (data_file self) = Some a /\ shape a = [M; Nx; Ny];
  cs_maps : exists a, lookup "maps" (data_file self) = Some a /\ shape a = [M; C; Nx; Ny];
  cs_ksp : inverse_crime self = false ->
           exists a, lookup "ksp" (data_file self) = Some a /\ shape a = [M; C; Nx; Ny];
  cs_masks : exists a, lookup "masks" (masks_file self) = Some a /\ shape a = [M; Nx; Ny];
  cs_loss : exists a rest, lookup "loss_masks" (masks_file self) = Some a /\
                           shape a = M :: rest;
  cs_noise : forall a, lookup "noise" (masks_file self) = Some a ->
                       shape a = [M; C; Nx; Ny]
}.

(** The imported helpers return an array of the shape they are given, on
    the batches of one sample the pipeline passes them. *)
Definition shape_preserving (f : ndarray -> res ndarray) (s : list nat) : Prop :=
  forall a, shape a = s -> exists b, f a = Ok b /\ shape b = s.

(** The object exposes only samples the store has: its length is at most
    the [M] samples of the store, or its fixed index is one of them.
    [__init__] establishes the first. *)
Definition indexes_within (self : MultiChannelMRIDataset) (M : nat) : Prop :=
  match data_idx self with
  | Some j => j < M
  | None => __len__ self <= M
  end.

(** The dtypes of a sample: complex single precision for [imgs], [maps]
    and [out], real single precision for [masks] and [loss_masks]. *)
Definition well_typed (d : sample) : Prop :=
  adtype (s_imgs d) = complex64 /\ adtype (s_maps d) = complex64 /\
  adtype (s_out d) = complex64 /\
  adtype (s_masks d) = float32 /\ adtype (s_loss_masks d) = float32.

(** A computation that draws nothing: it is a lifted result. *)
Definition pure {A} (m : M A) : Prop := exists r, forall g, m g = lift r g.

(* ================================================================== *)
(** ** The disk cache: load_data_cached and save_data_cached           *)
(* ================================================================== *)

(** The HDF5 files on disk, by path.  Directories are not modelled. *)
Definition filesystem := list (string * h5file).

Fixpoint fs_lookup (path : string) (fs : filesystem) : option h5file :=
  match fs with
  | [] => None
  | (p, F) :: fs' => if String.eqb path p then Some F else fs_lookup path fs'
  end.

(** [h5py.File(path, 'w')] closed after its datasets are written: the
    file at [path] is created, or replaced when there is one. *)
Definition fs_write (path : string) (F : h5file) (fs : filesystem) : filesystem :=
  (path, F) :: filter (fun e => negb (String.eqb path (fst e))) fs.

(** The outcome of reading a file: the value, [OSError] when
    [h5py.File(path, 'r')] finds no file, or an exception raised while the
    datasets are read. *)
Inductive io_res (A : Type) : Type :=
| Done (a : A)
| OSError (path : string)
| Raised (e : exn).
Arguments Done {A} a.
Arguments OSError {A} path.
Arguments Raised {A} e.

Definition of_res {A} (r : res A) : io_res A :=
  match r with Ok a => Done a | Err e => Raised e end.

(** [np.array(F[k], dtype=d)] *)
Definition h5_read_all (F : h5file) (k : string) (d : dtype) : res ndarray :=
  rmap (astype d) (h5_get F k).

(** [load_data_cached(data_file)]: imgs, maps, masks, out, loss_masks. *)
Definition load_data_cached (fs : filesystem) (data_file : string)
  : io_res (ndarray * ndarray * ndarray * ndarray * ndarray) :=
  match fs_lookup data_file fs with
  | None => OSError data_file
  | Some F =>
      of_res (try imgs <- h5_read_all F "imgs" complex64;
              try maps <- h5_read_all F "maps" complex64;
              try masks <- h5_read_all F "masks" float32;
              try loss_masks <- h5_read_all F "loss_masks" float32;
              try out <- h5_read_all F "out" complex64;
              Ok (imgs, maps, masks, out, loss_masks))
  end.

(** [F.create_dataset(k, data=a)] on an open file: RuntimeError/ValueError
    of h5py when the name exists. *)
Definition create_dataset (k : string) (a : ndarray) (F : h5file) : res h5file :=
  if has_key k F then Err ValueError else Ok (F ++ [(k, a)]).

(** [save_data_cached(data_file, imgs, maps, masks, out, loss_masks)] *)
Definition save_data_cached (fs : filesystem) (data_file : string)
    (imgs maps masks out loss_masks : ndarray) : res filesystem :=
  try F <- create_dataset "imgs" imgs [];
  try F <- create_dataset "maps" maps F;
  try F <- create_dataset "masks" masks F;
  try F <- create_dataset "out" out F;
  try F <- create_dataset "loss_masks" loss_masks F;
  Ok (fs_write data_file F fs).

(** The arrays of a sample, in the order of the cache functions. *)
Definition sample_arrays (d : sample) : ndarray * ndarray * ndarray * ndarray * ndarray :=
  (s_imgs d, s_maps d, s_masks d, s_out d, s_loss_masks d).

(** The object with another noise level. *)
Definition with_stdev (s : real) (self : MultiChannelMRIDataset) : MultiChannelMRIDataset :=
  mkDataset (data_file self) (masks_file self) s (adjoint_data self) (gen_masks self)
            (max_data_sets self) (ds_shape self) (fully_sampled self) (data_idx self)
            (scale_data self) (inverse_crime self) (noncart self) (num_data_sets self).

(* ================================================================== *)
(** ** Results and the monad: inversion lemmas                         *)
(* ================================================================== *)

Lemma rbind_ok {A B} (r : res A) (k : A -> res B) (b : B) :
  rbind r k = Ok b -> exists a, r = Ok a /\ k a = Ok b.
Proof. destruct r as [a|e]; simpl; intros E; [exists a; auto | discriminate]. Qed.

Lemma bind_ok {A B} (m : M A) (k : A -> M B) g b g' :
  bind m k g = Ok (b, g') -> exists a g1, m g = Ok (a, g1) /\ k a g1 = Ok (b, g').
Proof.
  unfold bind. destruct (m g) as [[a g1]|e]; intros E; [|discriminate].
  exists a, g1; auto.
Qed.

Lemma lift_ok {A} (r : res A) g a g' :
  lift r g = Ok (a, g') -> r = Ok a /\ g' = g.
Proof. unfold lift. destruct r; intros E; inversion E; auto. Qed.

Lemma ret_ok {A} (a b : A) g g' : ret a g = Ok (b, g') -> b = a /\ g' = g.
Proof. unfold ret. intros E; inversion E; auto. Qed.

Lemma py_assert_ok b msg u : py_assert b msg = Ok u -> b = true.
Proof. destruct b; simpl; [auto | discriminate]. Qed.

Lemma pure_lift {A} (r : res A) : pure (lift r).
Proof. exists r; auto. Qed.

Lemma pure_ret {A} (a : A) : pure (ret a).
Proof. exists (Ok a); auto. Qed.

Lemma pure_raise {A} e : pure (@raise A e).
Proof. exists (Err e); auto. Qed.

Lemma pure_bind {A B} (m : M A) (k : A -> M B) :
  pure m -> (forall a, pure (k a)) -> pure (bind m k).
Proof.
  intros [r Hr] Hk. destruct r as [a|e].
  - destruct (Hk a) as [r' Hr']. exists r'. intros g.
    unfold bind. rewrite Hr. simpl. apply Hr'.
  - exists (Err e). intros g. unfold bind. rewrite Hr. reflexivity.
Qed.

Lemma pure_value {A} (m : M A) g1 g2 : pure m -> value (m g1) = value (m g2).
Proof.
  intros [r Hr]. rewrite !Hr. destruct r; reflexivity.
Qed.

(* ================================================================== *)
(** ** Scalars: the laws the proofs use                                *)
(* ================================================================== *)

Lemma real_eq (a b c d : Qc) : a = c -> b = d -> mkReal a b = mkReal c d.
Proof. intros; subst; reflexivity. Qed.

(** [1 / np.sqrt(2) * s] is [s / np.sqrt(2)]. *)
Lemma noise_scale_div (s : real) : rmul (rdiv r1 sqrt2) s = rdiv s sqrt2.
Proof.
  destruct s as [a b]. unfold rdiv, rinv, rmul, r1, sqrt2; simpl.
  apply real_eq; field; intros E; apply (f_equal this) in E; vm_compute in E;
    discriminate.
Qed.

Lemma rmul_0_r (x : real) : rmul x r0 = r0.
Proof. destruct x as [a b]. unfold rmul, r0; simpl. apply real_eq; ring. Qed.

Lemma cmul_0_r (z : complex) : cmul z c0 = c0.
Proof.
  destruct z as [x y]. unfold cmul, c0; simpl.
  rewrite !rmul_0_r. reflexivity.
Qed.

Lemma Qc_eq_bool_refl (x : Qc) : Qc_eq_bool x x = true.
Proof. unfold Qc_eq_bool. destruct (Qc_eq_dec x x); congruence. Qed.

Lemma real_eqb_eq (x y : real) : real_eqb x y = true <-> x = y.
Proof.
  unfold real_eqb. split.
  - intros E. apply andb_prop in E as [E1 E2].
    apply Qc_eq_bool_correct in E1, E2. destruct x, y; simpl in *; subst; reflexivity.
  - intros <-. rewrite !Qc_eq_bool_refl. reflexivity.
Qed.

Lemma complex_eqb_eq (z w : complex) : complex_eqb z w = true <-> z = w.
Proof.
  unfold complex_eqb. split.
  - intros E. apply andb_prop in E as [E1 E2].
    apply real_eqb_eq in E1, E2. destruct z, w; simpl in *; subst; reflexivity.
  - intros <-. apply andb_true_intro; split; apply real_eqb_eq; reflexivity.
Qed.

Lemma list_eqb_eq {A} (eqb : A -> A -> bool) :
  (forall x y, eqb x y = true <-> x = y) ->
  forall l m, list_eqb eqb l m = true <-> l = m.
Proof.
  intros Heq. induction l as [|x l IH]; destruct m as [|y m]; simpl;
    try (split; [discriminate | discriminate]); try (split; reflexivity).
  rewrite andb_true_iff, Heq, IH. split.
  - intros [-> ->]; reflexivity.
  - intros E; inversion E; auto.
Qed.

Lemma dtype_eqb_eq (a b : dtype) : dtype_eqb a b = true <-> a = b.
Proof. destruct a, b; simpl; split; intros E; try reflexivity; discriminate. Qed.

Lemma array_eqb_eq (a b : ndarray) : array_eqb a b = true <-> a = b.
Proof.
  unfold array_eqb. rewrite !andb_true_iff, dtype_eqb_eq.
  rewrite (list_eqb_eq Nat.eqb Nat.eqb_eq), (list_eqb_eq complex_eqb complex_eqb_eq).
  destruct a, b; simpl. split.
  - intros [[-> ->] ->]; reflexivity.
  - intros E; inversion E; auto.
Qed.

Lemma array_eqb_neq (a b : ndarray) : array_eqb a b = false -> a <> b.
Proof.
  intros E Heq. apply array_eqb_eq in Heq. congruence.
Qed.

(* ================================================================== *)
(** ** Arrays: indexing a tabulated array, broadcasting               *)
(* ================================================================== *)

Lemma length_indices (s : list nat) : length (indices s) = prod s.
Proof.
  induction s as [|n s IH]; simpl; [reflexivity|].
  assert (G : forall l, length (flat_map (fun i => map (cons i) (indices s)) l)
                        = length l * prod s).
  { induction l as [|i l IHl]; simpl; [reflexivity|].
    rewrite length_app, length_map, IH, IHl. reflexivity. }
  rewrite G, length_seq. reflexivity.
Qed.

Lemma flat_index_lt (s idx : list nat) : in_range s idx -> flat_index s idx < prod s.
Proof.
  revert idx. induction s as [|n s IH]; intros [|i idx]; simpl; try tauto; try lia.
  intros [Hi Hr]. specialize (IH _ Hr). nia.
Qed.

Lemma nth_blocks {A} (g : nat -> list A) (p : nat) (d : A) :
  (forall i, length (g i) = p) ->
  forall n a i j, i < n -> j < p ->
    nth (i * p + j) (flat_map g (seq a n)) d = nth j (g (a + i)) d.
Proof.
  intros Hg. induction n as [|n IH]; intros a i j Hi Hj; [lia|].
  simpl. destruct i as [|i].
  - simpl. rewrite app_nth1 by (rewrite Hg; lia). rewrite Nat.add_0_r. reflexivity.
  - rewrite app_nth2 by (rewrite Hg; simpl; lia).
    rewrite Hg. replace (S i * p + j - p) with (i * p + j) by (simpl; lia).
    rewrite IH by lia. f_equal. f_equal. lia.
Qed.

Lemma nth_indices (s idx : list nat) :
  in_range s idx -> nth (flat_index s idx) (indices s) [] = idx.
Proof.
  revert idx. induction s as [|n s IH]; intros [|i idx]; simpl; try tauto.
  intros [Hi Hr].
  rewrite (nth_blocks (fun i => map (cons i) (indices s)) (p := prod s)).
  - simpl. pose proof (flat_index_lt _ _ Hr) as Hlt.
    rewrite (nth_indep _ [] (i :: [])) by (rewrite length_map, length_indices; exact Hlt).
    rewrite (map_nth (cons i)). rewrite IH by exact Hr. reflexivity.
  - intros k. rewrite length_map. apply length_indices.
  - exact Hi.
  - apply flat_index_lt; exact Hr.
Qed.

Lemma get_tabulate d s f idx :
  in_range s idx -> get (tabulate d s f) idx = f idx.
Proof.
  intros Hr. unfold get, tabulate; simpl.
  pose proof (flat_index_lt _ _ Hr) as Hlt.
  rewrite (nth_indep _ c0 (f [])) by (rewrite length_map, length_indices; exact Hlt).
  rewrite (map_nth f). rewrite nth_indices by exact Hr. reflexivity.
Qed.

Lemma wf_tabulate d s f : wf (tabulate d s f).
Proof. unfold wf, tabulate; simpl. rewrite length_map. apply length_indices. Qed.

Lemma get_scale c a idx : get (scale c a) idx = cmul (of_real c) (get a idx).
Proof.
  unfold get, scale, amap; simpl.
  rewrite <- (cmul_0_r (of_real c)) at 1. apply map_nth.
Qed.

Lemma get_expand_front a idx : get (expand_front a) (0 :: idx) = get a idx.
Proof. unfold get, expand_front; simpl. reflexivity. Qed.

Lemma bdim_refl n : bdim n n = Some n.
Proof. unfold bdim. rewrite Nat.eqb_refl. reflexivity. Qed.

Lemma bdim_1_l n : bdim 1 n = Some n.
Proof.
  unfold bdim. destruct (1 =? n) eqn:E; [apply Nat.eqb_eq in E; subst|]; reflexivity.
Qed.

Lemma bshape_rev_refl s : bshape_rev s s = Some s.
Proof.
  induction s as [|n s IH]; simpl; [reflexivity|].
  rewrite bdim_refl, IH. reflexivity.
Qed.

Lemma broadcast_shapes_refl s : broadcast_shapes s s = Some s.
Proof.
  unfold broadcast_shapes. rewrite bshape_rev_refl. simpl. rewrite rev_involutive.
  reflexivity.
Qed.

(** An index inside a shape is read as it is. *)
Lemma clamp_in_range s idx : in_range s idx -> clamp s idx = idx.
Proof.
  revert idx. induction s as [|n s IH]; intros [|i idx]; simpl; try tauto.
  intros [Hi Hr]. rewrite IH by exact Hr.
  destruct (n =? 1) eqn:E; [apply Nat.eqb_eq in E; f_equal; lia | reflexivity].
Qed.

Lemma proj_same s idx : in_range s idx -> proj s idx = idx.
Proof.
  intros Hr. unfold proj.
  assert (L : length idx = length s).
  { revert idx Hr. induction s as [|n s IH]; intros [|i idx]; simpl; try tauto.
    intros [_ Hr]. f_equal. apply IH. exact Hr. }
  rewrite L, Nat.sub_diag. simpl. apply clamp_in_range. exact Hr.
Qed.

Lemma zip_with_same_shape f a b :
  shape a = shape b ->
  exists r, zip_with f a b = Ok r /\ shape r = shape a /\
            adtype r = result_type (adtype a) (adtype b) /\
            forall idx, in_range (shape a) idx -> get r idx = f (get a idx) (get b idx).
Proof.
  intros E. unfold zip_with. rewrite <- E, broadcast_shapes_refl.
  eexists; split; [reflexivity|]. split; [reflexivity|]. split; [reflexivity|].
  intros idx Hr. rewrite get_tabulate by exact Hr.
  rewrite proj_same by exact Hr. reflexivity.
Qed.

(* ================================================================== *)
(** ** The pipeline, step by step                                      *)
(* ================================================================== *)

Section Pipeline.

Context {H : Helpers}.

(** What a returning [_load_data] has done: read the arrays, passed the
    two guards, simulated from the arrays as read (the masks replaced by
    ones when fully sampled), and modulated the maps afterwards. *)
Lemma _load_data_inv self idx g imgs maps masks out lm g' :
  _load_data self idx g = Ok ((imgs, maps, masks, out, lm), g') ->
  exists maps0 masks0 ksp noise,
    load_arrays self idx = Ok (imgs, maps0, masks0, ksp, noise, lm) /\
    scale_data self = false /\
    masks = (if fully_sampled self then ones (shape masks0) else masks0) /\
    (inverse_crime self = true -> noncart self = false) /\
    _sim_data self imgs maps0 masks noise
              (if inverse_crime self then None else ksp) g = Ok (out, g') /\
    (if negb (noncart self) then fftmod maps0 = Ok maps else maps = maps0).
Proof.
  unfold _load_data. intros E.
  apply bind_ok in E as ([[[[[imgs0 maps0] masks0] ksp] noise] lm0] & g1 & E1 & E).
  apply lift_ok in E1 as [E1 ->].
  apply bind_ok in E as (u & g2 & E2 & E).
  destruct (scale_data self) eqn:Hsc.
  { apply bind_ok in E2 as (u' & g3 & E2 & _).
    apply lift_ok in E2 as [E2 _]. discriminate. }
  apply ret_ok in E2 as [_ ->].
  apply bind_ok in E as (out0 & g3 & E3 & E).
  apply bind_ok in E as (maps1 & g4 & E4 & E).
  apply ret_ok in E as [E ->]. inversion E; subst; clear E.
  exists maps0, masks0, ksp, noise.
  split; [exact E1|]. split; [reflexivity|]. split; [reflexivity|].
  destruct (inverse_crime self) eqn:Hic.
  - apply bind_ok in E3 as (u' & g5 & E5 & E3).
    apply lift_ok in E5 as [E5 ->]. apply py_assert_ok in E5.
    apply negb_true_iff in E5. rewrite E5 in *. simpl in E4.
    apply lift_ok in E4 as [E4 ->].
    split; [reflexivity|]. split; [exact E3|]. simpl. exact E4.
  - split; [discriminate|].
    destruct (noncart self); simpl in *.
    + apply ret_ok in E4 as [-> ->]. split; [exact E3 | reflexivity].
    + apply lift_ok in E4 as [E4 ->]. split; [exact E3 | exact E4].
Qed.

(** What a returning [__getitem__] has done. *)
Lemma __getitem___inv self idx g i d g' :
  __getitem__ self idx g = Ok ((i, d), g') ->
  exists imgs maps masks out lm n,
    _load_data self (effective_idx self idx) g = Ok ((imgs, maps, masks, out, lm), g') /\
    i = effective_idx self idx /\
    shape0 imgs = Ok n /\
    exists imgs' maps' masks' out' lm',
      (if n =? 1
       then squeeze0 imgs = Ok imgs' /\ squeeze0 maps = Ok maps' /\
            squeeze0 masks = Ok masks' /\ squeeze0 out = Ok out' /\
            squeeze0 lm = Ok lm'
       else imgs' = imgs /\ maps' = maps /\ masks' = masks /\ out' = out /\ lm' = lm) /\
      d = mkSample (astype complex64 imgs') (astype complex64 maps')
                   (astype float32 masks') (astype float32 lm')
                   (astype complex64 out').
Proof.
  unfold __getitem__. intros E.
  apply bind_ok in E as ([[[[imgs maps] masks] out] lm] & g1 & E1 & E).
  apply bind_ok in E as (n & g2 & E2 & E).
  apply lift_ok in E2 as [E2 ->].
  apply bind_ok in E as ([[[[imgs' maps'] masks'] out'] lm'] & g3 & E3 & E).
  apply ret_ok in E as [E ->]. inversion E; subst; clear E.
  exists imgs, maps, masks, out, lm, n.
  destruct (n =? 1) eqn:Hn.
  - apply lift_ok in E3 as [E3 ->].
    split; [exact E1|]. split; [reflexivity|]. split; [exact E2|].
    apply rbind_ok in E3 as (a1 & Ea1 & E3).
    apply rbind_ok in E3 as (a2 & Ea2 & E3).
    apply rbind_ok in E3 as (a3 & Ea3 & E3).
    apply rbind_ok in E3 as (a4 & Ea4 & E3).
    apply rbind_ok in E3 as (a5 & Ea5 & E3).
    inversion E3; subst; clear E3.
    exists imgs', maps', masks', out', lm'. auto 10.
  - apply ret_ok in E3 as [E3 ->]. inversion E3; subst; clear E3.
    split; [exact E1|]. split; [reflexivity|]. split; [exact E2|].
    exists imgs, maps, masks, out, lm. auto 10.
Qed.

End Pipeline.

(* ================================================================== *)
(** ** The guards of [_load_data]                                      *)
(* ================================================================== *)

Section Guards.

Context {H : Helpers}.

(** No sample comes out of a configuration that [_load_data] rejects. *)
Lemma __getitem___err_of_load self idx g :
  (forall r, _load_data self (effective_idx self idx) g <> Ok r) ->
  exists e, __getitem__ self idx g = Err e.
Proof.
  intros Hno. destruct (__getitem__ self idx g) as [[[i d] g']|e] eqn:E.
  - apply __getitem___inv in E as (imgs & maps & masks & out & lm & n & E & _).
    exfalso. exact (Hno _ E).
  - exists e; reflexivity.
Qed.

End Guards.

(** C4. With [noncart] and [inverse_crime] both set, every access raises:
    no sample is returned for any index, store or generator state, and once
    the arrays are read (and data scaling is off) the exception is the
    assertion that guards the forward simulation, raised before [_sim_data]
    is entered. *)
Theorem noncart_inverse_crime_fails {H : Helpers} self idx g :
  noncart self = true -> inverse_crime self = true ->
  (exists e, __getitem__ self idx g = Err e) /\
  (forall x, load_arrays self (effective_idx self idx) = Ok x ->
             scale_data self = false ->
             __getitem__ self idx g = Err (AssertionError "FIXME: forward sim of NUFFT")).
Proof.
  intros Hnc Hic. split.
  - apply __getitem___err_of_load. intros [[[[[imgs maps] masks] out] lm] g'] E.
    apply _load_data_inv in E as (? & ? & ? & ? & _ & _ & _ & Hexcl & _).
    specialize (Hexcl Hic). congruence.
  - intros [[[[[imgs maps] masks] ksp] noise] lm] Hload Hsc.
    unfold __getitem__, _load_data, bind at 1 2.
    rewrite Hload, Hsc, Hic, Hnc. reflexivity.
Qed.

(** C9. With [scale_data] set, every access raises: no sample is returned,
    and once the arrays are read the exception is the assertion placed in
    front of the scaling code, which is therefore never run. *)
Theorem scale_data_fails {H : Helpers} self idx g :
  scale_data self = true ->
  (exists e, __getitem__ self idx g = Err e) /\
  (forall x, load_arrays self (effective_idx self idx) = Ok x ->
             __getitem__ self idx g = Err (AssertionError "SEE FIXME")).
Proof.
  intros Hsc. split.
  - apply __getitem___err_of_load. intros [[[[[imgs maps] masks] out] lm] g'] E.
    apply _load_data_inv in E as (? & ? & ? & ? & _ & Hoff & _).
    congruence.
  - intros [[[[[imgs maps] masks] ksp] noise] lm] Hload.
    unfold __getitem__, _load_data, bind at 1 2.
    rewrite Hload, Hsc. reflexivity.
Qed.

(* ================================================================== *)
(** ** Randomness: where the generator is read                         *)
(* ================================================================== *)

Lemma complex_randn_ok s g :
  exists a g', complex_randn s g = Ok (a, g') /\ shape a = s.
Proof.
  unfold complex_randn, bind, randn, lift, add.
  match goal with
  | |- context [zip_with ?f ?a ?b] =>
      destruct (zip_with_same_shape f a b) as (r & -> & Hs & _); [reflexivity|]
  end.
  eexists _, _; split; [reflexivity | exact Hs].
Qed.

Lemma pure_bind_lift {A B} (r : res A) (k : A -> M B) :
  (forall a, r = Ok a -> pure (k a)) -> pure (bind (lift r) k).
Proof.
  intros Hk. destruct r as [a|e].
  - destruct (Hk a eq_refl) as [r' Hr']. exists r'. intros g. apply Hr'.
  - exists (Err e). reflexivity.
Qed.

Ltac rbind_inv E :=
  repeat match type of E with
         | rbind _ _ = Ok _ =>
             let a := fresh "a" in
             let Ea := fresh "Ea" in
             apply rbind_ok in E as (a & Ea & E)
         end.

(** When the mask store holds [noise], the readers return it. *)
Lemma load_arrays_noise self idx imgs maps masks ksp noise lm :
  has_key "noise" (masks_file self) = true ->
  load_arrays self idx = Ok (imgs, maps, masks, ksp, noise, lm) ->
  exists n, noise = Some n.
Proof.
  intros Hk E. unfold load_arrays in E.
  destruct (inverse_crime self).
  - apply rbind_ok in E as ([[[[i0 m0] k0] n0] l0] & E0 & E).
    inversion E; subst; clear E.
    unfold load_data in E0. rewrite Hk in E0. rbind_inv E0.
    unfold rmap in Ea3. apply rbind_ok in Ea3 as (x & _ & Ex). inversion Ex; subst.
    destruct (ndim a1 =? 2); inversion E0; subst; simpl; eauto.
  - apply rbind_ok in E as ([[[[[i0 m0] k0] s0] n0] l0] & E0 & E).
    inversion E; subst; clear E.
    unfold load_data_ksp in E0. rewrite Hk in E0. rbind_inv E0.
    unfold rmap in Ea4. apply rbind_ok in Ea4 as (x & _ & Ex). inversion Ex; subst.
    destruct (ndim a2 =? 2); inversion E0; subst; simpl; eauto.
Qed.

Section Randomness.

Context {H : Helpers}.

(** With the noise given, [_sim_data] draws nothing. *)
Lemma pure__sim_data self imgs maps masks n ksp :
  pure (_sim_data self imgs maps masks (Some n) ksp).
Proof.
  unfold _sim_data. apply pure_bind; [|intros; apply pure_lift].
  unfold sim_measurement. destruct (noncart self).
  - repeat (apply pure_bind; [apply pure_lift | intros]).
    apply pure_bind; [apply pure_ret | intros; apply pure_ret].
  - apply pure_bind; [apply pure_ret | intros].
    destruct (inverse_crime self && is_none ksp); apply pure_lift.
Qed.

Lemma pure__load_data self idx :
  has_key "noise" (masks_file self) = true -> pure (_load_data self idx).
Proof.
  intros Hk. unfold _load_data. apply pure_bind_lift.
  intros [[[[[imgs maps] masks] ksp] noise] lm] Hload.
  destruct (load_arrays_noise _ _ Hk Hload) as [n ->].
  apply pure_bind.
  { destruct (scale_data self); [|apply pure_ret].
    apply pure_bind; [apply pure_lift | intros; apply pure_raise]. }
  intros _. apply pure_bind.
  { destruct (inverse_crime self); [|apply pure__sim_data].
    apply pure_bind; [apply pure_lift | intros; apply pure__sim_data]. }
  intros out. apply pure_bind; [|intros; apply pure_ret].
  destruct (negb (noncart self)); [apply pure_lift | apply pure_ret].
Qed.

Lemma pure___getitem__ self idx :
  has_key "noise" (masks_file self) = true -> pure (__getitem__ self idx).
Proof.
  intros Hk. unfold __getitem__.
  apply pure_bind; [apply pure__load_data; exact Hk|].
  intros [[[[imgs maps] masks] out] lm].
  apply pure_bind; [apply pure_lift|]. intros n.
  apply pure_bind; [|intros [[[[? ?] ?] ?] ?]; apply pure_ret].
  destruct (n =? 1); [apply pure_lift | apply pure_ret].
Qed.

End Randomness.

(** C8. Two accesses at the same index over the same stores, whatever the
    two states of the random generator: when both return, they return the
    same index and the same [imgs] and [maps] (and the same [masks] and
    [loss_masks]); and when the mask store holds a [noise] dataset the two
    accesses have the same outcome altogether, [out] included. *)
Theorem getitem_deterministic {H : Helpers} self idx g1 g2 :
  (forall i1 d1 g1' i2 d2 g2',
      __getitem__ self idx g1 = Ok ((i1, d1), g1') ->
      __getitem__ self idx g2 = Ok ((i2, d2), g2') ->
      i1 = i2 /\ s_imgs d1 = s_imgs d2 /\ s_maps d1 = s_maps d2 /\
      s_masks d1 = s_masks d2 /\ s_loss_masks d1 = s_loss_masks d2) /\
  (has_key "noise" (masks_file self) = true ->
   value (__getitem__ self idx g1) = value (__getitem__ self idx g2)).
Proof.
  split.
  - intros i1 d1 g1' i2 d2 g2' E1 E2.
    apply __getitem___inv in E1
      as (imgs1 & maps1 & masks1 & out1 & lm1 & n1 & L1 & -> & N1 &
          imgs1' & maps1' & masks1' & out1' & lm1' & S1 & ->).
    apply __getitem___inv in E2
      as (imgs2 & maps2 & masks2 & out2 & lm2 & n2 & L2 & -> & N2 &
          imgs2' & maps2' & masks2' & out2' & lm2' & S2 & ->).
    apply _load_data_inv in L1 as (m1 & k1 & ksp1 & nz1 & A1 & _ & Hm1 & _ & _ & F1).
    apply _load_data_inv in L2 as (m2 & k2 & ksp2 & nz2 & A2 & _ & Hm2 & _ & _ & F2).
    rewrite A1 in A2. inversion A2; subst imgs2 m2 k2 lm2. clear A2.
    assert (maps1 = maps2) as <-.
    { destruct (negb (noncart self)); congruence. }
    assert (masks1 = masks2) as <- by congruence.
    assert (n1 = n2) as <- by congruence.
    simpl. split; [reflexivity|].
    destruct (n1 =? 1).
    + destruct S1 as (Si1 & Sm1 & Sk1 & _ & Sl1).
      destruct S2 as (Si2 & Sm2 & Sk2 & _ & Sl2).
      assert (imgs1' = imgs2') as <- by congruence.
      assert (maps1' = maps2') as <- by congruence.
      assert (masks1' = masks2') as <- by congruence.
      assert (lm1' = lm2') as <- by congruence.
      auto.
    + destruct S1 as (-> & -> & -> & _ & ->).
      destruct S2 as (-> & -> & -> & _ & ->). auto.
  - intros Hk. apply pure_value. apply pure___getitem__. exact Hk.
Qed.

(* ================================================================== *)
(** ** The non-Cartesian branch                                        *)
(* ================================================================== *)

Section NonCartesian.

Context {H : Helpers}.

(** In non-Cartesian mode [_sim_data] returns the operator's output as it
    is: the noise, given or drawn, is not used. *)
Lemma _sim_data_noncart self imgs maps masks noise ksp g :
  noncart self = true ->
  value (_sim_data self imgs maps masks noise ksp g)
  = nufft_of_first_trajectory maps masks ksp.
Proof.
  intros Hnc.
  unfold _sim_data, sim_measurement, sim_output, nufft_of_first_trajectory.
  rewrite Hnc. rewrite !andb_false_r. unfold bind, lift, value, rmap; simpl.
  destruct (get_operator "gpunufft") as [new_op|e]; simpl; [|reflexivity].
  destruct (index0 0 masks) as [m0|e]; simpl; [|reflexivity].
  destruct (shape1 maps) as [nc|e]; simpl; [|reflexivity].
  destruct (new_op m0 (last2 (shape maps)) nc) as [fop|e]; simpl; [|reflexivity].
  destruct (expect ksp) as [k|e]; simpl; [|reflexivity].
  destruct (ifft2uc k) as [p|e]; simpl; [|reflexivity].
  destruct (op fop p) as [out|e]; simpl; [|reflexivity].
  destruct noise as [n|]; simpl; [reflexivity|].
  destruct (complex_randn_ok (shape (if ndim out =? 2 then expand_front out else out)) g)
    as (a & g' & -> & _).
  reflexivity.
Qed.

End NonCartesian.

(** C1 (the code departs from it). In non-Cartesian mode the value
    [_sim_data] returns does not depend on the noise, on [stdev] or on the
    generator: it is the output of the non-uniform Fourier operator with
    no noise term.  The statement that adds the noise sits in a branch the
    non-Cartesian mode never enters. *)
Theorem noncart_measurement_without_noise {H : Helpers}
    self self' imgs maps masks noise noise' ksp g g' :
  noncart self = true -> noncart self' = true ->
  value (_sim_data self imgs maps masks noise ksp g)
  = value (_sim_data self' imgs maps masks noise' ksp g').
Proof.
  intros Hnc Hnc'. rewrite !_sim_data_noncart by assumption. reflexivity.
Qed.

(** C10. In non-Cartesian mode the operator is built from the first
    sample's mask [masks[0]] and from the shape of the maps (the coil count
    [maps.shape[1]] and the spatial shape), and the whole batch is simulated
    with it: batches of masks with the same first mask, with maps of the
    same shape, give the same result, whatever the other masks, the values
    of the maps and the images are. *)
Theorem noncart_uses_first_trajectory {H : Helpers}
    self imgs imgs' maps maps' masks masks' noise ksp g :
  noncart self = true ->
  index0 0 masks = index0 0 masks' ->
  shape maps = shape maps' ->
  value (_sim_data self imgs maps masks noise ksp g)
  = value (_sim_data self imgs' maps' masks' noise ksp g) /\
  value (_sim_data self imgs maps masks noise ksp g)
  = (try new_op <- get_operator "gpunufft";
     try m0 <- index0 0 masks;
     try n_coils <- shape1 maps;
     try fourier_op <- new_op m0 (last2 (shape maps)) n_coils;
     try k <- expect ksp;
     try per_ch_img <- ifft2uc k;
     try out <- op fourier_op per_ch_img;
     Ok (if ndim out =? 2 then expand_front out else out)).
Proof.
  intros Hnc Hm Hs. rewrite !_sim_data_noncart by assumption.
  unfold nufft_of_first_trajectory, shape1. rewrite Hm, Hs. split; reflexivity.
Qed.

(** C3 (amended). In Cartesian mode the forward simulation and the adjoint
    coil combination consume the maps as read from the store; [fftmod] is
    applied to the maps after [_sim_data] has returned, and it is the
    modulated maps that [_load_data] hands back. *)
Theorem maps_modulated_after_simulation {H : Helpers}
    self idx g imgs maps masks out lm g' :
  noncart self = false ->
  _load_data self idx g = Ok ((imgs, maps, masks, out, lm), g') ->
  exists maps0 masks0 ksp noise,
    load_arrays self idx = Ok (imgs, maps0, masks0, ksp, noise, lm) /\
    _sim_data self imgs maps0 masks noise
              (if inverse_crime self then None else ksp) g = Ok (out, g') /\
    fftmod maps0 = Ok maps.
Proof.
  intros Hnc E.
  apply _load_data_inv in E as (maps0 & masks0 & ksp & noise & A & _ & _ & _ & S & F).
  rewrite Hnc in F. simpl in F.
  exists maps0, masks0, ksp, noise. auto.
Qed.

(* ================================================================== *)
(** ** The Cartesian measurement, entry by entry                       *)
(* ================================================================== *)

Lemma clamp_lt d i : i < d -> (if d =? 1 then 0 else i) = i.
Proof. intros Hi. destruct (d =? 1) eqn:E; [apply Nat.eqb_eq in E; lia | reflexivity]. Qed.

(** [a[:, None, :, :]] of a 3-D array. *)
Lemma expand_axis1_3d a N Nx Ny :
  shape a = [N; Nx; Ny] ->
  exists b, expand_axis1 a = Ok b /\ shape b = [N; 1; Nx; Ny] /\
            forall n x y, get b [n; 0; x; y] = get a [n; x; y].
Proof.
  intros Hs. unfold expand_axis1. rewrite Hs.
  eexists; split; [reflexivity|]. split; [reflexivity|].
  intros n x y. unfold get; simpl. rewrite Hs. simpl.
  f_equal. lia.
Qed.

(** [a * b] where [a] has one channel and [b] has [C]: the single channel
    of sample [n] meets every channel of sample [n]. *)
Lemma zip_with_channels f a b N C Nx Ny :
  shape a = [N; 1; Nx; Ny] -> shape b = [N; C; Nx; Ny] ->
  exists r, zip_with f a b = Ok r /\ shape r = [N; C; Nx; Ny] /\
            forall n c x y, n < N -> c < C -> x < Nx -> y < Ny ->
              get r [n; c; x; y] = f (get a [n; 0; x; y]) (get b [n; c; x; y]).
Proof.
  intros Ha Hb. unfold zip_with, broadcast_shapes. rewrite Ha, Hb. simpl.
  rewrite !bdim_refl, bdim_1_l. simpl.
  eexists; split; [reflexivity|]. split; [reflexivity|].
  intros n c x y Hn Hc Hx Hy.
  rewrite get_tabulate by (simpl; auto).
  unfold proj; simpl. rewrite !clamp_lt by assumption. reflexivity.
Qed.

Lemma noise_or_randn_ok noise s g :
  (forall n, noise = Some n -> shape n = s) ->
  exists nz g1, noise_or_randn noise s g = Ok (nz, g1) /\ shape nz = s.
Proof.
  intros Hn. destruct noise as [n|]; simpl.
  - exists n, g. split; [reflexivity | auto].
  - destruct (complex_randn_ok s g) as (a & g' & E & Hs). eauto.
Qed.

(** The inverse-crime measurement, entry by entry. *)
Lemma sim_measurement_inverse_crime {H : Helpers}
    self imgs maps masks noise g N C Nx Ny :
  noncart self = false -> inverse_crime self = true ->
  shape imgs = [N; Nx; Ny] -> shape maps = [N; C; Nx; Ny] ->
  shape masks = [N; Nx; Ny] ->
  (forall n, noise = Some n -> shape n = [N; C; Nx; Ny]) ->
  exists nz g1 P,
    noise_or_randn noise (shape maps) g = Ok (nz, g1) /\
    shape P = [N; C; Nx; Ny] /\
    (forall n c x y, n < N -> c < C -> x < Nx -> y < Ny ->
       get P [n; c; x; y] = cmul (get imgs [n; x; y]) (get maps [n; c; x; y])) /\
    forall F, fft2uc P = Ok F -> shape F = [N; C; Nx; Ny] ->
      exists out,
        sim_measurement self imgs maps masks noise None g = Ok (out, g1) /\
        shape out = [N; C; Nx; Ny] /\
        forall n c x y, n < N -> c < C -> x < Nx -> y < Ny ->
          get out [n; c; x; y]
          = cmul (get masks [n; x; y])
                 (cadd (get F [n; c; x; y])
                       (cmul (of_real (rdiv (stdev self) sqrt2)) (get nz [n; c; x; y]))).
Proof.
  intros Hnc Hic Hi Hm Hk Hn.
  destruct (@noise_or_randn_ok noise (shape maps) g) as (nz & g1 & Enz & Hnz).
  { intros n En. rewrite Hm. auto. }
  rewrite Hm in Hnz.
  destruct (expand_axis1_3d imgs Hi) as (i1 & Ei & Hi1 & Gi).
  destruct (expand_axis1_3d masks Hk) as (m1 & Em & Hm1 & Gm).
  destruct (zip_with_channels cmul i1 maps Hi1 Hm) as (P & EP & HP & GP).
  exists nz, g1, P. split; [exact Enz|]. split; [exact HP|]. split.
  { intros n c x y ? ? ? ?. rewrite GP by assumption. rewrite Gi. reflexivity. }
  intros F EF HF.
  destruct (zip_with_same_shape cadd F (scale (noise_scale self) nz))
    as (s & Es & Hs & _ & Gs).
  { simpl. congruence. }
  rewrite HF in Hs, Gs.
  destruct (zip_with_channels cmul m1 s Hm1 Hs) as (out & Eo & Ho & Go).
  exists out. split; [|split; [exact Ho|]].
  - unfold sim_measurement. rewrite Hnc, Hic. simpl.
    unfold bind. rewrite Enz. unfold lift, mul, add.
    rewrite Em, Ei. simpl. rewrite EP. simpl. rewrite EF. simpl.
    rewrite Es. simpl. rewrite Eo. reflexivity.
  - intros n c x y Hn' Hc Hx Hy.
    rewrite Go by assumption. rewrite Gm.
    rewrite Gs by (simpl; auto). rewrite get_scale.
    unfold noise_scale. rewrite noise_scale_div. reflexivity.
Qed.

(** C5. Cartesian, inverse crime, no k-space: for images [N, Nx, Ny], maps
    [N, C, Nx, Ny], masks [N, Nx, Ny] and noise (given, of the maps' shape,
    or drawn at it), the measurement before the output transform is, at
    every sample n, channel c and pixel (x, y),
        masks[n,x,y] * (F[n,c,x,y] + (stdev / sqrt 2) * noise[n,c,x,y])
    where F is [fft2uc] of the array imgs[n,x,y] * maps[n,c,x,y]. *)
Theorem inverse_crime_measurement {H : Helpers}
    self imgs maps masks noise g N C Nx Ny :
  noncart self = false -> inverse_crime self = true ->
  shape imgs = [N; Nx; Ny] -> shape maps = [N; C; Nx; Ny] ->
  shape masks = [N; Nx; Ny] ->
  (forall n, noise = Some n -> shape n = [N; C; Nx; Ny]) ->
  exists nz g1 P,
    noise_or_randn noise (shape maps) g = Ok (nz, g1) /\
    shape P = [N; C; Nx; Ny] /\
    (forall n c x y, n < N -> c < C -> x < Nx -> y < Ny ->
       get P [n; c; x; y] = cmul (get imgs [n; x; y]) (get maps [n; c; x; y])) /\
    forall F, fft2uc P = Ok F -> shape F = [N; C; Nx; Ny] ->
      exists out,
        sim_measurement self imgs maps masks noise None g = Ok (out, g1) /\
        shape out = [N; C; Nx; Ny] /\
        forall n c x y, n < N -> c < C -> x < Nx -> y < Ny ->
          get out [n; c; x; y]
          = cmul (get masks [n; x; y])
                 (cadd (get F [n; c; x; y])
                       (cmul (of_real (rdiv (stdev self) sqrt2)) (get nz [n; c; x; y]))).
Proof.
  intros Hnc Hic Hi Hm Hk Hn.
  exact (sim_measurement_inverse_crime self imgs maps masks g Hnc Hic Hi Hm Hk Hn).
Qed.


(** With the real k-space and a single sample (the batch an integer index
    reads), the mask of the sample meets each of its channels. *)
Lemma ksp_measurement_single {H : Helpers}
    self imgs maps masks noise ksp g C Nx Ny :
  noncart self = false -> inverse_crime self = false ->
  shape maps = [1; C; Nx; Ny] -> shape masks = [1; Nx; Ny] ->
  shape ksp = [1; C; Nx; Ny] ->
  (forall n, noise = Some n -> shape n = [1; C; Nx; Ny]) ->
  exists nz g1 out,
    noise_or_randn noise (shape maps) g = Ok (nz, g1) /\
    sim_measurement self imgs maps masks noise (Some ksp) g = Ok (out, g1) /\
    shape out = [1; C; Nx; Ny] /\
    forall c x y, c < C -> x < Nx -> y < Ny ->
      get out [0; c; x; y]
      = cmul (get masks [0; x; y])
             (cadd (get ksp [0; c; x; y])
                   (cmul (of_real (rdiv (stdev self) sqrt2)) (get nz [0; c; x; y]))).
Proof.
  intros Hnc Hic Hm Hk Hs Hn.
  destruct (@noise_or_randn_ok noise (shape maps) g) as (nz & g1 & Enz & Hnz).
  { intros n En. rewrite Hm. auto. }
  rewrite Hm in Hnz.
  destruct (zip_with_same_shape cadd ksp (scale (noise_scale self) nz))
    as (s & Es & Hss & _ & Gs).
  { simpl. congruence. }
  rewrite Hs in Hss, Gs.
  assert (Hef : shape (expand_front masks) = [1; 1; Nx; Ny]) by (simpl; rewrite Hk; reflexivity).
  destruct (zip_with_channels cmul (expand_front masks) s Hef Hss) as (out & Eo & Ho & Go).
  exists nz, g1, out. split; [exact Enz|]. split; [|split; [exact Ho|]].
  - unfold sim_measurement. rewrite Hnc, Hic. simpl.
    unfold bind. rewrite Enz. unfold lift, mul, add. simpl.
    rewrite Es. simpl. rewrite Eo. reflexivity.
  - intros c x y Hc Hx Hy.
    rewrite Go by (auto; lia). rewrite get_expand_front.
    rewrite Gs by (simpl; auto). rewrite get_scale.
    unfold noise_scale. rewrite noise_scale_div. reflexivity.
Qed.

Ltac array_eq :=
  vm_compute;
  match goal with
  | |- Ok _ = Ok _ => apply (f_equal (@Ok ndarray)); apply array_eqb_eq; vm_compute; reflexivity
  end.

(** C2 (the code departs from it). Cartesian, real k-space.  The mask is
    given its new axis in front ([masks[None, ...]], shape [1, N, Nx, Ny]),
    not at the channel position as in the inverse-crime branch, so that its
    sample axis meets the channel axis of the k-space [N, C, Nx, Ny].  For
    two samples and three coils the shapes do not broadcast and the call
    raises, in [_sim_data] and so in [__getitem__] over a store whose
    entries are pairs of samples; for two samples and two coils channel c
    of every sample is multiplied by the mask of sample c: with masks 1 and
    0 and the k-space [[1, 2], [3, 4]] the result is [[1, 0], [3, 0]], where
    the masks applied per sample give [[1, 2], [0, 0]]. *)
Theorem ksp_measurement_batch_misaligned {H : Helpers} (g : rng) :
  let self := Reference.dataset Reference.noise_store false false false false false in
  let paired := Reference.dataset_over Reference.paired_data_store
                  Reference.paired_mask_store false false false false false in
  sim_measurement self Reference.imgs_2 Reference.maps_2x3 Reference.masks_2
                  (Some Reference.noise_2x3) (Some Reference.ksp_2x3) g
  = Err ValueError
  /\ __getitem__ paired 0 g = Err ValueError
  /\ value (sim_measurement self Reference.imgs_2 Reference.maps_2x2 Reference.masks_2
                            (Some Reference.noise_2x2) (Some Reference.ksp_2x2) g)
     = Ok (Reference.carr [2; 2; 1; 1] [1; 0; 3; 0]%Z).
Proof.
  split; [reflexivity|]. split; [reflexivity|]. array_eq.
Qed.

(* ================================================================== *)
(** ** Fully sampled masks                                             *)
(* ================================================================== *)

(** What the readers return, in terms of the arrays as stored. *)
Lemma load_arrays_inv self idx imgs maps masks ksp noise lm :
  load_arrays self idx = Ok (imgs, maps, masks, ksp, noise, lm) ->
  exists i0 m0,
    h5_read (data_file self) "imgs" idx complex64 = Ok i0 /\
    stored_mask self idx = Ok m0 /\
    (if ndim m0 =? 2
     then imgs = expand_front i0 /\ masks = expand_front m0
     else imgs = i0 /\ masks = m0).
Proof.
  intros E. unfold load_arrays, stored_mask in *.
  destruct (inverse_crime self).
  - apply rbind_ok in E as ([[[[i0 m0] k0] n0] l0] & E0 & E).
    inversion E; subst; clear E.
    unfold load_data in E0. rbind_inv E0.
    exists a, a1. split; [exact Ea|]. split; [exact Ea1|].
    destruct (ndim a1 =? 2); inversion E0; subst; auto.
  - apply rbind_ok in E as ([[[[[i0 m0] k0] s0] n0] l0] & E0 & E).
    inversion E; subst; clear E.
    unfold load_data_ksp in E0. rbind_inv E0.
    exists a, a2. split; [exact Ea|]. split; [exact Ea2|].
    destruct (ndim a2 =? 2); inversion E0; subst; auto.
Qed.

Lemma astype_ones_squeezed s :
  astype float32 (mkArr float64 s (repeat c1 (prod (1 :: s)))) = astype float32 (ones s).
Proof.
  unfold ones. simpl prod. rewrite Nat.add_0_r. reflexivity.
Qed.

(** C6 (amended). With [fully_sampled] set, the [masks] of a returned
    sample is an all-ones float32 array.  Its shape is the shape of the
    mask read from the store when that mask is 2-D, and when it is not 2-D
    and the images read have a leading dimension other than 1; when the
    mask read is not 2-D and the images read have leading dimension 1, the
    leading axis (of length 1) of the mask is squeezed away. *)
Theorem fully_sampled_masks {H : Helpers} self idx g i d g' m :
  fully_sampled self = true ->
  __getitem__ self idx g = Ok ((i, d), g') ->
  stored_mask self (effective_idx self idx) = Ok m ->
  s_masks d = astype float32 (ones (shape (s_masks d))) /\
  (ndim m = 2 -> shape (s_masks d) = shape m) /\
  exists i0,
    h5_read (data_file self) "imgs" (effective_idx self idx) complex64 = Ok i0 /\
    (ndim m <> 2 -> shape0 i0 <> Ok 1 -> shape (s_masks d) = shape m) /\
    (ndim m <> 2 -> shape0 i0 = Ok 1 -> shape m = 1 :: shape (s_masks d)).
Proof.
  intros Hfs E Hm.
  apply __getitem___inv in E
    as (imgs & maps & masks & out & lm & n & L & _ & N &
        imgs' & maps' & masks' & out' & lm' & S & ->).
  apply _load_data_inv in L as (maps0 & masks0 & ksp & noise & A & _ & Hmk & _).
  rewrite Hfs in Hmk.
  apply load_arrays_inv in A as (i0 & m0 & Ei & Em & Hshape).
  rewrite Hm in Em. inversion Em; subst m0; clear Em.
  simpl s_masks.
  destruct (ndim m =? 2) eqn:Hrank.
  - (* the batch-of-one reshaping took place: one sample, squeezed back *)
    destruct Hshape as [-> ->]. simpl in N. inversion N; subst n. simpl in S.
    destruct S as (_ & _ & Sk & _). subst masks. simpl in Sk.
    inversion Sk; subst masks'; clear Sk.
    apply Nat.eqb_eq in Hrank.
    split; [apply astype_ones_squeezed|]. split; [reflexivity|].
    exists i0. split; [exact Ei|]. split; intros Hr; contradiction.
  - destruct Hshape as [-> ->]. apply Nat.eqb_neq in Hrank.
    destruct (n =? 1) eqn:Hn.
    + apply Nat.eqb_eq in Hn. subst n.
      destruct S as (_ & _ & Sk & _). subst masks.
      unfold squeeze0 in Sk. simpl in Sk.
      destruct (shape m) as [|[|[|k]] rest] eqn:Hs; try discriminate.
      inversion Sk; subst masks'; clear Sk.
      split; [apply astype_ones_squeezed|]. split; [intros; contradiction|].
      exists i0. split; [exact Ei|]. split; [intros _ Hne; contradiction | reflexivity].
    + destruct S as (_ & _ & -> & _). subst masks.
      split; [reflexivity|]. split; [intros; contradiction|].
      exists i0. split; [exact Ei|]. split; [reflexivity|].
      intros _ Hone. rewrite Hone in N. inversion N; subst n. discriminate.
Qed.

(** C6 as stated fails: over a store whose mask dataset has shape
    [1, 1, 2, 2], the mask read at index 0 has shape [1, 2, 2] and the
    [masks] returned has shape [2, 2]. *)
Lemma fully_sampled_shape_counterexample :
  let self := Reference.dataset_over Reference.stacked_data_store
                Reference.stacked_mask_store false false true false false in
  exists i d g' m,
    fully_sampled self = true /\
    @__getitem__ Reference.helpers self 0 (Reference.const_rng 0) = Ok ((i, d), g') /\
    stored_mask self (effective_idx self 0) = Ok m /\
    shape m = [1; 2; 2] /\ shape (s_masks d) = [2; 2] /\
    shape (s_masks d) <> shape m.
Proof.
  intros self.
  assert (E : exists r, @__getitem__ Reference.helpers self 0 (Reference.const_rng 0) = Ok r).
  { vm_compute. eexists. reflexivity. }
  destruct E as [[[i d] g'] E].
  assert (Em : exists m, stored_mask self (effective_idx self 0) = Ok m).
  { vm_compute. eexists. reflexivity. }
  destruct Em as [m Em].
  exists i, d, g', m. split; [reflexivity|]. split; [exact E|]. split; [exact Em|].
  assert (Hm : shape m = [1; 2; 2]).
  { vm_compute in Em. inversion Em. reflexivity. }
  assert (Hd : shape (s_masks d) = [2; 2]).
  { vm_compute in E. inversion E. reflexivity. }
  split; [exact Hm|]. split; [exact Hd|]. rewrite Hm, Hd. discriminate.
Qed.

(* ================================================================== *)
(** ** A well-formed Cartesian store: every valid index returns        *)
(* ================================================================== *)

Lemma has_key_lookup k F a : lookup k F = Some a -> has_key k F = true.
Proof. unfold has_key. intros ->. reflexivity. Qed.

Lemma h5_read_ok F k idx d ds n rest :
  lookup k F = Some ds -> shape ds = n :: rest -> idx < n ->
  exists a, h5_read F k idx d = Ok a /\ shape a = rest /\ adtype a = d.
Proof.
  intros Hl Hs Hi. unfold h5_read, h5_get, index0. rewrite Hl. simpl. rewrite Hs.
  apply Nat.ltb_lt in Hi. rewrite Hi. simpl.
  eexists; split; [reflexivity|]. split; reflexivity.
Qed.

Lemma optional_noise_ok F idx d M rest :
  (forall a, lookup "noise" F = Some a -> shape a = M :: rest) -> idx < M ->
  exists noise,
    (if has_key "noise" F then rmap Some (h5_read F "noise" idx d) else Ok None) = Ok noise /\
    forall n, noise = Some n -> shape n = rest.
Proof.
  intros Hn Hi. unfold has_key. destruct (lookup "noise" F) as [a|] eqn:El.
  - destruct (@h5_read_ok F "noise" idx d a M rest El (Hn a eq_refl) Hi)
      as (x & -> & Hx & _).
    exists (Some x). split; [reflexivity|]. intros n En. inversion En; subst n.
    exact Hx.
  - exists None. split; [reflexivity|]. intros n En. discriminate.
Qed.

Lemma load_arrays_ok self idx M C Nx Ny :
  cartesian_store self M C Nx Ny -> idx < M ->
  exists imgs maps masks ksp noise lm rest,
    load_arrays self idx = Ok (imgs, maps, masks, ksp, noise, lm) /\
    shape imgs = [1; Nx; Ny] /\ shape maps = [1; C; Nx; Ny] /\
    shape masks = [1; Nx; Ny] /\ shape lm = 1 :: rest /\
    (inverse_crime self = false -> exists k, ksp = Some k /\ shape k = [1; C; Nx; Ny]) /\
    (forall n, noise = Some n -> shape n = [1; C; Nx; Ny]).
Proof.
  intros [(ai & Li & Si) (am & Lm & Sm) Hksp (ak & Lk & Sk) (al & rest & Ll & Sl) Hnoise] Hi.
  unfold load_arrays.
  destruct (inverse_crime self) eqn:Hic.
  - unfold load_data.
    destruct (@h5_read_ok _ "imgs" idx complex64 _ _ _ Li Si Hi) as (i0 & -> & Hi0 & _).
    destruct (@h5_read_ok _ "maps" idx complex64 _ _ _ Lm Sm Hi) as (m0 & -> & Hm0 & _).
    destruct (@h5_read_ok _ "masks" idx float32 _ _ _ Lk Sk Hi) as (k0 & -> & Hk0 & _).
    destruct (@h5_read_ok _ "loss_masks" idx float32 _ _ _ Ll Sl Hi) as (l0 & -> & Hl0 & _).
    destruct (@optional_noise_ok (masks_file self) idx complex64 M [C; Nx; Ny] Hnoise Hi)
      as (nz & -> & Hnz).
    simpl. unfold ndim. rewrite Hk0. simpl.
    exists (expand_front i0), (expand_front m0), (expand_front k0), None,
           (option_map expand_front nz), (expand_front l0), rest.
    split; [reflexivity|]. simpl. rewrite Hi0, Hm0, Hk0, Hl0.
    repeat (split; [reflexivity|]). split; [discriminate|].
    intros n En. destruct nz as [x|]; simpl in En; inversion En; subst n.
    simpl. rewrite (Hnz x eq_refl). reflexivity.
  - destruct (Hksp eq_refl) as (as_ & Ls & Ss).
    unfold load_data_ksp, read_masks_ksp. rewrite (has_key_lookup _ _ Lk).
    destruct (@h5_read_ok _ "imgs" idx complex64 _ _ _ Li Si Hi) as (i0 & -> & Hi0 & _).
    destruct (@h5_read_ok _ "maps" idx complex64 _ _ _ Lm Sm Hi) as (m0 & -> & Hm0 & _).
    destruct (@h5_read_ok _ "ksp" idx complex64 _ _ _ Ls Ss Hi) as (s0 & -> & Hs0 & _).
    destruct (@h5_read_ok _ "masks" idx float32 _ _ _ Lk Sk Hi) as (k0 & -> & Hk0 & _).
    destruct (@h5_read_ok _ "loss_masks" idx float32 _ _ _ Ll Sl Hi) as (l0 & -> & Hl0 & _).
    destruct (@optional_noise_ok (masks_file self) idx float32 M [C; Nx; Ny] Hnoise Hi)
      as (nz & -> & Hnz).
    simpl. unfold ndim. rewrite Hk0. simpl.
    exists (expand_front i0), (expand_front m0), (expand_front k0), (Some (expand_front s0)),
           (option_map expand_front nz), (expand_front l0), rest.
    split; [reflexivity|]. simpl. rewrite Hi0, Hm0, Hk0, Hl0.
    repeat (split; [reflexivity|]). split.
    + intros _. eexists; split; [reflexivity|]. simpl. rewrite Hs0. reflexivity.
    + intros n En. destruct nz as [x|]; simpl in En; inversion En; subst n.
      simpl. rewrite (Hnz x eq_refl). reflexivity.
Qed.

Section Returns.

Context {H : Helpers}.

Variables (self : MultiChannelMRIDataset) (C Nx Ny : nat).

Hypothesis cartesian : noncart self = false.
Hypothesis fftmod_shape : shape_preserving fftmod [1; C; Nx; Ny].
Hypothesis fft2uc_shape : shape_preserving fft2uc [1; C; Nx; Ny].
Hypothesis ifft2uc_shape : shape_preserving ifft2uc [1; C; Nx; Ny].

Lemma sim_measurement_ok imgs maps masks noise ksp g :
  shape imgs = [1; Nx; Ny] -> shape maps = [1; C; Nx; Ny] ->
  shape masks = [1; Nx; Ny] ->
  (inverse_crime self = false -> exists k, ksp = Some k /\ shape k = [1; C; Nx; Ny]) ->
  (forall n, noise = Some n -> shape n = [1; C; Nx; Ny]) ->
  exists out g1,
    sim_measurement self imgs maps masks noise
                    (if inverse_crime self then None else ksp) g = Ok (out, g1) /\
    shape out = [1; C; Nx; Ny].
Proof.
  intros Hi Hm Hk Hksp Hn.
  destruct (inverse_crime self) eqn:Hic.
  - destruct (@sim_measurement_inverse_crime H self imgs maps masks noise g 1 C Nx Ny
                cartesian Hic Hi Hm Hk Hn) as (nz & g1 & P & _ & HP & _ & HF).
    destruct (fft2uc_shape P HP) as (F & EF & HsF).
    destruct (HF F EF HsF) as (out & Eo & Ho & _).
    exists out, g1. auto.
  - destruct (Hksp eq_refl) as (k & -> & Hsk).
    destruct (@ksp_measurement_single H self imgs maps masks noise k g C Nx Ny
                cartesian Hic Hm Hk Hsk Hn) as (nz & g1 & out & _ & Eo & Ho & _).
    exists out, g1. auto.
Qed.

Lemma sim_output_ok maps out :
  shape maps = [1; C; Nx; Ny] -> shape out = [1; C; Nx; Ny] ->
  exists o, sim_output self maps out = Ok o /\
            shape o = if adjoint_data self then [1; Nx; Ny] else [1; C; Nx; Ny].
Proof.
  intros Hm Ho. unfold sim_output. rewrite cartesian. simpl.
  rewrite !andb_true_r.
  destruct (adjoint_data self); simpl.
  - destruct (ifft2uc_shape out Ho) as (g & -> & Hg). simpl.
    destruct (zip_with_same_shape cmul (conj maps) g) as (p & Ep & Hp & _).
    { simpl. congruence. }
    unfold mul. rewrite Ep. simpl. unfold sum_axis1. simpl in Hp. rewrite Hp, Hm.
    eexists; split; reflexivity.
  - destruct (fftmod_shape out Ho) as (o & -> & Hso).
    exists o. auto.
Qed.

Lemma _load_data_ok M idx g :
  scale_data self = false ->
  cartesian_store self M C Nx Ny -> idx < M ->
  exists imgs maps masks out lm rest g1,
    _load_data self idx g = Ok ((imgs, maps, masks, out, lm), g1) /\
    shape imgs = [1; Nx; Ny] /\ shape maps = [1; C; Nx; Ny] /\
    shape masks = [1; Nx; Ny] /\ shape lm = 1 :: rest /\
    shape out = if adjoint_data self then [1; Nx; Ny] else [1; C; Nx; Ny].
Proof.
  intros Hsc Hstore Hidx.
  destruct (@load_arrays_ok self idx M C Nx Ny Hstore Hidx)
    as (imgs & maps & masks & ksp & noise & lm & rest & EL & Hi & Hm & Hk & Hl & Hksp & Hn).
  set (masks' := if fully_sampled self then ones (shape masks) else masks).
  assert (Hk' : shape masks' = [1; Nx; Ny]).
  { unfold masks'. destruct (fully_sampled self); [simpl|]; exact Hk. }
  destruct (@sim_measurement_ok imgs maps masks' noise ksp g Hi Hm Hk' Hksp Hn)
    as (meas & g1 & Em & Hmeas).
  destruct (@sim_output_ok maps meas Hm Hmeas) as (out & Eout & Hout).
  destruct (fftmod_shape maps Hm) as (maps' & Emod & Hmod).
  exists imgs, maps', masks', out, lm, rest, g1.
  split; [|auto 10].
  unfold _load_data, bind at 1. unfold lift at 1. rewrite EL.
  rewrite Hsc. unfold bind at 1. unfold ret at 1.
  fold masks'. rewrite cartesian. simpl negb. simpl py_assert.
  unfold bind at 1.
  assert (ES : _sim_data self imgs maps masks' noise
                 (if inverse_crime self then None else ksp) g = Ok (out, g1)).
  { unfold _sim_data, bind. rewrite Em. unfold lift. rewrite Eout. reflexivity. }
  destruct (inverse_crime self).
  - unfold bind at 1. unfold lift at 1. rewrite ES.
    unfold bind, lift, ret. rewrite Emod. reflexivity.
  - rewrite ES. unfold bind, lift, ret. rewrite Emod. reflexivity.
Qed.

(** On a well-formed Cartesian store every index below the sample count
    returns a sample, of the index read, with the batch axis squeezed away. *)
Lemma __getitem___returns M idx g :
  scale_data self = false ->
  cartesian_store self M C Nx Ny -> effective_idx self idx < M ->
  exists d g1,
    __getitem__ self idx g = Ok ((effective_idx self idx, d), g1) /\
    shape (s_imgs d) = [Nx; Ny] /\ shape (s_maps d) = [C; Nx; Ny] /\
    shape (s_masks d) = [Nx; Ny] /\
    shape (s_out d) = if adjoint_data self then [Nx; Ny] else [C; Nx; Ny].
Proof.
  intros Hsc Hstore Hidx.
  destruct (@_load_data_ok M (effective_idx self idx) g Hsc Hstore Hidx)
    as (imgs & maps & masks & out & lm & rest & g1 & EL & Hi & Hm & Hk & Hl & Ho).
  unfold __getitem__, bind at 1. rewrite EL.
  unfold bind at 1. unfold lift at 1. unfold shape0. rewrite Hi.
  unfold bind at 1. simpl Nat.eqb. cbv iota.
  unfold squeeze0. rewrite Hi, Hm, Hk, Hl.
  destruct (adjoint_data self); rewrite Ho; simpl;
    eexists _, _; (split; [reflexivity|]); simpl; auto.
Qed.

End Returns.

(** [__init__] exposes no more samples than the store has. *)
Lemma __init___indexes_within df mf sd nds adj gm sc fs ic nc self :
  __init__ df mf sd nds adj gm sc fs None ic nc = Ok self ->
  exists a M, lookup "imgs" df = Some a /\ shape0 a = Ok M /\ indexes_within self M.
Proof.
  unfold __init__, _len, h5_get. intros E.
  destruct (lookup "imgs" df) as [a|]; [|discriminate]. simpl in E.
  destruct (shape0 a) as [n|] eqn:En; [|discriminate]. simpl in E.
  inversion E; subst self; clear E.
  exists a, n. split; [reflexivity|]. split; [exact En|].
  unfold indexes_within, __len__; simpl.
  destruct nds; [apply Nat.le_min_r | apply Nat.le_refl].
Qed.

(** A valid index reads a sample of the store. *)
Lemma effective_idx_lt self idx M :
  indexes_within self M -> idx < __len__ self -> effective_idx self idx < M.
Proof.
  unfold indexes_within, effective_idx.
  destruct (data_idx self); intros Hw Hi; [exact Hw | lia].
Qed.

(* ================================================================== *)
(** ** The dtypes of a sample                                          *)
(* ================================================================== *)

Lemma __getitem___well_typed {H : Helpers} self idx g i d g' :
  __getitem__ self idx g = Ok ((i, d), g') -> well_typed d.
Proof.
  intros E.
  apply __getitem___inv in E
    as (imgs & maps & masks & out & lm & n & _ & _ & _ &
        imgs' & maps' & masks' & out' & lm' & _ & ->).
  unfold well_typed; simpl. auto.
Qed.

(** C7. Every sample [__getitem__] returns has [imgs], [maps] and [out]
    of dtype complex64 and [masks] and [loss_masks] of dtype float32; and
    over a well-formed Cartesian store of [M] samples (data scaling off, the
    imported helpers shape-preserving) every valid index, below the length
    of the object, does return such a sample. *)
Theorem sample_dtypes {H : Helpers} self :
  (forall idx g i d g',
      __getitem__ self idx g = Ok ((i, d), g') -> well_typed d) /\
  (forall M C Nx Ny idx g,
      noncart self = false -> scale_data self = false ->
      cartesian_store self M C Nx Ny ->
      shape_preserving fftmod [1; C; Nx; Ny] ->
      shape_preserving fft2uc [1; C; Nx; Ny] ->
      shape_preserving ifft2uc [1; C; Nx; Ny] ->
      indexes_within self M -> idx < __len__ self ->
      exists d g',
        __getitem__ self idx g = Ok ((effective_idx self idx, d), g') /\ well_typed d).
Proof.
  split.
  - intros idx g i d g' E. exact (__getitem___well_typed _ _ _ E).
  - intros M C Nx Ny idx g Hnc Hsc Hstore Hmod Hfft Hifft Hw Hidx.
    destruct (@__getitem___returns H self C Nx Ny Hnc Hmod Hfft Hifft M idx g
                Hsc Hstore (effective_idx_lt _ _ Hw Hidx)) as (d & g1 & E & _).
    exists d, g1. split; [exact E|]. exact (__getitem___well_typed _ _ _ E).
Qed.

(* ================================================================== *)
(** ** Concrete runs                                                   *)
(* ================================================================== *)

(** The reference helpers on a 2 x 2 image: the modulation negates the
    entries of even x + y; the transform of a constant image is its norm at
    the centre (1, 1) and nothing elsewhere; the inverse undoes it. *)
Example reference_fftmod_run :
  Reference.fftmod (Reference.carr [2; 2] [1; 2; 3; 4]%Z)
  = Ok (Reference.carr [2; 2] [-1; 2; 3; -4]%Z).
Proof. array_eq. Qed.

Example reference_fft2uc_constant :
  Reference.fft2uc (Reference.carr [2; 2] [1; 1; 1; 1]%Z)
  = Ok (Reference.carr [2; 2] [0; 0; 0; 2]%Z).
Proof. array_eq. Qed.

Example reference_fft2uc_inverse :
  (try f <- Reference.fft2uc (Reference.carr [1; 4] [1; 2; 3; 5]%Z); Reference.ifft2uc f)
  = Ok (Reference.carr [1; 4] [1; 2; 3; 5]%Z).
Proof. array_eq. Qed.

(** The specification's scenario in small: inverse crime, adjoint output,
    no noise ([stdev] times a generator that delivers zeros), fully
    sampled.  [out] is the image times the sum of the squared magnitudes of
    the maps, of shape [Nx, Ny]. *)
Example noiseless_adjoint_run :
  rmap (fun r => s_out (snd (fst r)))
       (@__getitem__ Reference.helpers
          (Reference.dataset Reference.mask_store true false true true false)
          0 (Reference.const_rng 0))
  = Ok (Reference.carr [2; 2] [2; 2; 12; 40]%Z).
Proof. array_eq. Qed.

(** C3 as stated fails: inverse crime, adjoint output, the noise stored.
    [_load_data] at index 0 returns the [out] simulated from the maps as
    read; simulating from the modulated maps it returns gives another
    array. *)
Lemma modulated_maps_counterexample :
  let self := Reference.dataset Reference.noise_store true false false true false in
  let g := Reference.const_rng 0 in
  exists imgs maps0 masks noise lm maps out out',
    load_arrays self 0 = Ok (imgs, maps0, masks, None, noise, lm) /\
    value (@_load_data Reference.helpers self 0 g) = Ok (imgs, maps, masks, out, lm) /\
    Reference.fftmod maps0 = Ok maps /\
    value (@_sim_data Reference.helpers self imgs maps0 masks noise None g) = Ok out /\
    value (@_sim_data Reference.helpers self imgs maps masks noise None g) = Ok out' /\
    out <> out'.
Proof.
  intros self g. do 8 eexists.
  split; [vm_compute; reflexivity|].
  split; [vm_compute; reflexivity|].
  split; [vm_compute; reflexivity|].
  split; [vm_compute; reflexivity|].
  split; [vm_compute; reflexivity|].
  apply array_eqb_neq. vm_compute. reflexivity.
Qed.

(** C4 over the reference store: the access raises the assertion. *)
Lemma noncart_inverse_crime_fails_witness :
  let self := Reference.dataset Reference.mask_store true false false true true in
  noncart self = true /\ inverse_crime self = true /\
  @__getitem__ Reference.helpers self 0 (Reference.const_rng 0)
  = Err (AssertionError "FIXME: forward sim of NUFFT").
Proof.
  intros self. split; [reflexivity|]. split; [reflexivity|].
  assert (E : exists x, load_arrays self (effective_idx self 0) = Ok x).
  { vm_compute. eexists. reflexivity. }
  destruct E as [x E].
  exact (proj2 (@noncart_inverse_crime_fails Reference.helpers self 0
                  (Reference.const_rng 0) eq_refl eq_refl) x E eq_refl).
Defined.

(** C9 over the reference store: the access raises the assertion. *)
Lemma scale_data_fails_witness :
  let self := Reference.dataset Reference.mask_store true true false false false in
  scale_data self = true /\
  @__getitem__ Reference.helpers self 0 (Reference.const_rng 0)
  = Err (AssertionError "SEE FIXME").
Proof.
  intros self. split; [reflexivity|].
  assert (E : exists x, load_arrays self (effective_idx self 0) = Ok x).
  { vm_compute. eexists. reflexivity. }
  destruct E as [x E].
  exact (proj2 (@scale_data_fails Reference.helpers self 0
                  (Reference.const_rng 0) eq_refl) x E).
Defined.

(** The reference helpers keep the shape of a batch of one 2 x 2 sample
    with two coils, and the reference store is well formed. *)
Lemma reference_dft2uc_2x2 inverse :
  shape_preserving (Reference.dft2uc inverse) [1; 2; 2; 2].
Proof.
  intros a Hs. unfold Reference.dft2uc. rewrite Hs. simpl.
  eexists; split; reflexivity.
Qed.

Lemma reference_fftmod_2x2 : shape_preserving Reference.fftmod [1; 2; 2; 2].
Proof.
  intros a Hs. unfold Reference.fftmod, ndim. rewrite Hs. simpl.
  eexists; split; reflexivity.
Qed.

Lemma reference_store ic :
  cartesian_store (Reference.dataset Reference.mask_store true false false ic false) 2 2 2 2.
Proof.
  constructor.
  - eexists; split; reflexivity.
  - eexists; split; reflexivity.
  - intros _. eexists; split; reflexivity.
  - eexists; split; reflexivity.
  - eexists _, _; split; reflexivity.
  - intros a E. destruct ic; discriminate E.
Qed.

(** C7 over the reference store: index 1 returns a well-typed sample. *)
Lemma sample_dtypes_witness :
  let self := Reference.dataset Reference.mask_store true false false true false in
  exists d g',
    @__getitem__ Reference.helpers self 1 (Reference.const_rng 1) = Ok ((1, d), g') /\
    well_typed d.
Proof.
  intros self.
  exact (proj2 (@sample_dtypes Reference.helpers self) 2 2 2 2 1 (Reference.const_rng 1)
               eq_refl eq_refl (reference_store true) reference_fftmod_2x2
               (reference_dft2uc_2x2 false) (reference_dft2uc_2x2 true)
               (le_n 2) (le_n 2)).
Defined.

(** C8 over the store with noise: two generator states, one outcome. *)
Lemma getitem_deterministic_witness :
  let self := Reference.dataset Reference.noise_store true false false true false in
  has_key "noise" (masks_file self) = true /\
  value (@__getitem__ Reference.helpers self 1 (Reference.const_rng 0))
  = value (@__getitem__ Reference.helpers self 1 (Reference.const_rng 3)).
Proof.
  intros self. split; [reflexivity|].
  exact (proj2 (@getitem_deterministic Reference.helpers self 1
                  (Reference.const_rng 0) (Reference.const_rng 3)) eq_refl).
Defined.

(** C1 on a batch of one: the noise given and the noise drawn give the
    same non-Cartesian measurement. *)
Lemma noncart_measurement_without_noise_witness :
  let self := Reference.dataset Reference.traj_store false false false false true in
  noncart self = true /\
  value (@_sim_data Reference.helpers self Reference.imgs_1 Reference.maps_1
           Reference.traj_a (Some Reference.noise_nc) (Some Reference.ksp_1)
           (Reference.const_rng 1))
  = value (@_sim_data Reference.helpers self Reference.imgs_1 Reference.maps_1
             Reference.traj_a None (Some Reference.ksp_1) (Reference.const_rng 2)).
Proof.
  intros self. split; [reflexivity|].
  exact (@noncart_measurement_without_noise Reference.helpers self self
           Reference.imgs_1 Reference.maps_1 Reference.traj_a
           (Some Reference.noise_nc) None (Some Reference.ksp_1)
           (Reference.const_rng 1) (Reference.const_rng 2) eq_refl eq_refl).
Defined.

(** C10 on two batches of trajectories that differ in the second sample
    only, with other images and other maps of the same shape. *)
Lemma noncart_uses_first_trajectory_witness :
  let self := Reference.dataset Reference.traj_store false false false false true in
  noncart self = true /\
  index0 0 Reference.traj_a = index0 0 Reference.traj_b /\
  Reference.traj_a <> Reference.traj_b /\
  value (@_sim_data Reference.helpers self Reference.imgs_1 Reference.maps_1
           Reference.traj_a None (Some Reference.ksp_1) (Reference.const_rng 1))
  = value (@_sim_data Reference.helpers self Reference.imgs_1' Reference.maps_1'
             Reference.traj_b None (Some Reference.ksp_1) (Reference.const_rng 1)).
Proof.
  intros self. split; [reflexivity|]. split; [reflexivity|].
  split; [apply array_eqb_neq; vm_compute; reflexivity|].
  exact (proj1 (@noncart_uses_first_trajectory Reference.helpers self
                  Reference.imgs_1 Reference.imgs_1' Reference.maps_1 Reference.maps_1'
                  Reference.traj_a Reference.traj_b
                  None (Some Reference.ksp_1) (Reference.const_rng 1)
                  eq_refl eq_refl eq_refl)).
Defined.

(** C3 (amended) over the reference store. *)
Lemma maps_modulated_after_simulation_witness :
  let self := Reference.dataset Reference.mask_store true false false true false in
  let g := Reference.const_rng 1 in
  noncart self = false /\
  exists imgs maps masks out lm g',
    @_load_data Reference.helpers self 0 g = Ok ((imgs, maps, masks, out, lm), g') /\
    exists maps0 masks0 ksp noise,
      load_arrays self 0 = Ok (imgs, maps0, masks0, ksp, noise, lm) /\
      @_sim_data Reference.helpers self imgs maps0 masks noise
                 (if inverse_crime self then None else ksp) g = Ok (out, g') /\
      Reference.fftmod maps0 = Ok maps.
Proof.
  intros self g. split; [reflexivity|].
  assert (E : exists r, @_load_data Reference.helpers self 0 g = Ok r).
  { vm_compute. eexists. reflexivity. }
  destruct E as [[[[[[imgs maps] masks] out] lm] g'] E].
  exists imgs, maps, masks, out, lm, g'. split; [exact E|].
  exact (@maps_modulated_after_simulation Reference.helpers self 0 g
           imgs maps masks out lm g' eq_refl E).
Defined.

(** C5 on one sample of two coils and 2 x 2 pixels, the noise drawn. *)
Lemma inverse_crime_measurement_witness :
  let self := Reference.dataset Reference.mask_store true false false true false in
  exists out g1,
    @sim_measurement Reference.helpers self Reference.imgs_1 Reference.maps_1
                     Reference.masks_1 None None (Reference.const_rng 1) = Ok (out, g1) /\
    shape out = [1; 2; 2; 2].
Proof.
  intros self.
  destruct (@inverse_crime_measurement Reference.helpers self Reference.imgs_1
              Reference.maps_1 Reference.masks_1 None (Reference.const_rng 1) 1 2 2 2
              eq_refl eq_refl eq_refl eq_refl eq_refl)
    as (nz & g1 & P & _ & HP & _ & HF).
  { intros n En. discriminate En. }
  destruct (reference_dft2uc_2x2 false P HP) as (F & EF & HsF).
  destruct (HF F EF HsF) as (out & Eo & Ho & _).
  exists out, g1. split; [exact Eo | exact Ho].
Defined.

(** C6 (amended) over the reference store: 2-D masks, all ones of the
    shape read. *)
Lemma fully_sampled_masks_witness :
  let self := Reference.dataset Reference.mask_store true false true true false in
  fully_sampled self = true /\
  exists i d g',
    @__getitem__ Reference.helpers self 0 (Reference.const_rng 1) = Ok ((i, d), g') /\
    s_masks d = astype float32 (ones [2; 2]).
Proof.
  intros self. split; [reflexivity|].
  assert (E : exists r, @__getitem__ Reference.helpers self 0 (Reference.const_rng 1) = Ok r).
  { vm_compute. eexists. reflexivity. }
  destruct E as [[[i d] g'] E].
  assert (Em : exists m, stored_mask self (effective_idx self 0) = Ok m /\ shape m = [2; 2]).
  { vm_compute. eexists. split; reflexivity. }
  destruct Em as (m & Em & Hs).
  exists i, d, g'. split; [exact E|].
  destruct (@fully_sampled_masks Reference.helpers self 0 (Reference.const_rng 1)
              i d g' m eq_refl E Em) as (Hones & Hshape & _).
  rewrite Hones. rewrite Hshape by (unfold ndim; rewrite Hs; reflexivity).
  rewrite Hs. reflexivity.
Defined.

(* ================================================================== *)
(** ** The disk cache                                                  *)
(* ================================================================== *)

Lemma astype_idem d a : astype d (astype d a) = astype d a.
Proof.
  unfold astype; simpl. destruct (is_complex d); [reflexivity|].
  rewrite map_map. reflexivity.
Qed.

Lemma fs_lookup_write path F fs : fs_lookup path (fs_write path F fs) = Some F.
Proof. unfold fs_write; simpl. rewrite String.eqb_refl. reflexivity. Qed.

Lemma fs_lookup_write_other path q F fs :
  q <> path -> fs_lookup q (fs_write path F fs) = fs_lookup q fs.
Proof.
  intros Hne. unfold fs_write; simpl.
  destruct (String.eqb q path) eqn:E; [apply String.eqb_eq in E; contradiction|].
  induction fs as [|[p G] fs IH]; simpl; [reflexivity|].
  destruct (String.eqb path p) eqn:Ep; simpl.
  - apply String.eqb_eq in Ep. subst p. rewrite E. exact IH.
  - rewrite IH. reflexivity.
Qed.

Lemma save_data_cached_file fs path imgs maps masks out lm :
  save_data_cached fs path imgs maps masks out lm
  = Ok (fs_write path [("imgs"%string, imgs); ("maps"%string, maps);
                       ("masks"%string, masks); ("out"%string, out);
                       ("loss_masks"%string, lm)] fs).
Proof. reflexivity. Qed.

(** Saving never fails and reading back returns the five arrays in the
    same order, each cast to the dtype [load_data_cached] asks for. *)
Lemma load_save_data_cached fs path imgs maps masks out lm :
  exists fs',
    save_data_cached fs path imgs maps masks out lm = Ok fs' /\
    load_data_cached fs' path
    = Done (astype complex64 imgs, astype complex64 maps, astype float32 masks,
            astype complex64 out, astype float32 lm).
Proof.
  eexists. split; [apply save_data_cached_file|].
  unfold load_data_cached. rewrite fs_lookup_write. reflexivity.
Qed.




(* ================================================================== *)
(** ** The storage readers                                             *)
(* ================================================================== *)

Lemma h5_read_dtype F k idx d a : h5_read F k idx d = Ok a -> adtype a = d.
Proof.
  unfold h5_read. intros E. rbind_inv E. inversion E; subst. reflexivity.
Qed.

Lemma shape0_expand_front a : shape0 (expand_front a) = Ok 1.
Proof. reflexivity. Qed.

Lemma ndim_expand_front a : ndim (expand_front a) = S (ndim a).
Proof. reflexivity. Qed.

(** What [load_data] returns, in terms of the datasets read. *)
Lemma load_data_inv idx df mf imgs maps masks noise lm :
  load_data idx df mf = Ok (imgs, maps, masks, noise, lm) ->
  exists i0 m0 k0 l0 n0,
    h5_read df "imgs" idx complex64 = Ok i0 /\
    h5_read df "maps" idx complex64 = Ok m0 /\
    h5_read mf "masks" idx float32 = Ok k0 /\
    h5_read mf "loss_masks" idx float32 = Ok l0 /\
    (if has_key "noise" mf
     then exists x, h5_read mf "noise" idx complex64 = Ok x /\ n0 = Some x
     else n0 = None) /\
    (if ndim k0 =? 2
     then imgs = expand_front i0 /\ maps = expand_front m0 /\
          masks = expand_front k0 /\ lm = expand_front l0 /\
          noise = option_map expand_front n0
     else imgs = i0 /\ maps = m0 /\ masks = k0 /\ lm = l0 /\ noise = n0).
Proof.
  unfold load_data. intros E. rbind_inv E.
  exists a, a0, a1, a2, a3.
  repeat (split; [assumption|]).
  split.
  - destruct (has_key "noise" mf); [|inversion Ea3; reflexivity].
    unfold rmap in Ea3. apply rbind_ok in Ea3 as (x & Ex & Ey).
    inversion Ey; subst. eauto.
  - destruct (ndim a1 =? 2); inversion E; subst; auto 10.
Qed.

(** What [load_data_ksp] returns, in terms of the datasets read. *)
Lemma load_data_ksp_inv idx df mf imgs maps masks ksp noise lm :
  load_data_ksp idx df mf = Ok (imgs, maps, masks, ksp, noise, lm) ->
  exists i0 m0 s0 k0 l0 n0,
    h5_read df "imgs" idx complex64 = Ok i0 /\
    h5_read df "maps" idx complex64 = Ok m0 /\
    h5_read df "ksp" idx complex64 = Ok s0 /\
    read_masks_ksp idx mf = Ok k0 /\
    h5_read mf "loss_masks" idx float32 = Ok l0 /\
    (if has_key "noise" mf
     then exists x, h5_read mf "noise" idx float32 = Ok x /\ n0 = Some x
     else n0 = None) /\
    (if ndim k0 =? 2
     then imgs = expand_front i0 /\ maps = expand_front m0 /\
          masks = expand_front k0 /\ ksp = expand_front s0 /\
          lm = expand_front l0 /\ noise = option_map expand_front n0
     else imgs = i0 /\ maps = m0 /\ masks = k0 /\ ksp = s0 /\ lm = l0 /\ noise = n0).
Proof.
  unfold load_data_ksp. intros E. rbind_inv E.
  exists a, a0, a1, a2, a3, a4.
  repeat (split; [assumption|]).
  split.
  - destruct (has_key "noise" mf); [|inversion Ea4; reflexivity].
    unfold rmap in Ea4. apply rbind_ok in Ea4 as (x & Ex & Ey).
    inversion Ey; subst. eauto.
  - destruct (ndim a2 =? 2); inversion E; subst; auto 10.
Qed.

(** X4. Neither reader ever returns a 2-D [masks]: a mask read as 2-D is
    given a leading axis, and then every array returned with it (noise
    included) has a leading axis of length 1 as well; the decision is taken
    on the rank of the mask alone. *)
Theorem readers_batch_axis idx df mf :
  (forall imgs maps masks noise lm,
      load_data idx df mf = Ok (imgs, maps, masks, noise, lm) ->
      ndim masks <> 2 /\
      (ndim masks = 3 /\ shape0 masks = Ok 1 /\ shape0 imgs = Ok 1 /\
       shape0 maps = Ok 1 /\ shape0 lm = Ok 1 /\
       (forall n, noise = Some n -> shape0 n = Ok 1)
       \/ h5_read mf "masks" idx float32 = Ok masks)) /\
  (forall imgs maps masks ksp noise lm,
      load_data_ksp idx df mf = Ok (imgs, maps, masks, ksp, noise, lm) ->
      ndim masks <> 2 /\
      (ndim masks = 3 /\ shape0 masks = Ok 1 /\ shape0 imgs = Ok 1 /\
       shape0 maps = Ok 1 /\ shape0 ksp = Ok 1 /\ shape0 lm = Ok 1 /\
       (forall n, noise = Some n -> shape0 n = Ok 1)
       \/ read_masks_ksp idx mf = Ok masks)).
Proof.
  split.
  - intros imgs maps masks noise lm E.
    apply load_data_inv in E as (i0 & m0 & k0 & l0 & n0 & _ & _ & Ek & _ & _ & Hp).
    destruct (ndim k0 =? 2) eqn:Hr.
    + apply Nat.eqb_eq in Hr. destruct Hp as (-> & -> & -> & -> & ->).
      rewrite ndim_expand_front, Hr. split; [discriminate|]. left.
      repeat (split; [reflexivity|]).
      intros n En. destruct n0; inversion En; subst. reflexivity.
    + apply Nat.eqb_neq in Hr. destruct Hp as (-> & -> & -> & -> & ->).
      split; [exact Hr | right; exact Ek].
  - intros imgs maps masks ksp noise lm E.
    apply load_data_ksp_inv in E
      as (i0 & m0 & s0 & k0 & l0 & n0 & _ & _ & _ & Ek & _ & _ & Hp).
    destruct (ndim k0 =? 2) eqn:Hr.
    + apply Nat.eqb_eq in Hr. destruct Hp as (-> & -> & -> & -> & -> & ->).
      rewrite ndim_expand_front, Hr. split; [discriminate|]. left.
      repeat (split; [reflexivity|]).
      intros n En. destruct n0; inversion En; subst. reflexivity.
    + apply Nat.eqb_neq in Hr. destruct Hp as (-> & -> & -> & -> & -> & ->).
      split; [exact Hr | right; exact Ek].
Qed.

Lemma astype_float32_real a : Forall (fun z => im z = r0) (data (astype float32 a)).
Proof.
  unfold astype; simpl. apply Forall_forall. intros z Hin.
  apply in_map_iff in Hin as (w & <- & _). reflexivity.
Qed.

Lemma h5_read_float32_real F k idx a :
  h5_read F k idx float32 = Ok a -> Forall (fun z => im z = r0) (data a).
Proof.
  unfold h5_read. intros E. rbind_inv E. inversion E; subst.
  apply astype_float32_real.
Qed.

(** X5. The stored noise is read as float32 by [load_data_ksp] and as
    complex64 by [load_data]: the noise the k-space reader returns is real,
    every entry with imaginary part zero, whatever the store holds, while
    the image-domain reader returns the stored entries as they are. *)
Theorem stored_noise_cast idx df mf :
  (forall imgs maps masks ksp n lm,
      load_data_ksp idx df mf = Ok (imgs, maps, masks, ksp, Some n, lm) ->
      adtype n = float32 /\ Forall (fun z => im z = r0) (data n)) /\
  (forall imgs maps masks n lm,
      load_data idx df mf = Ok (imgs, maps, masks, Some n, lm) ->
      adtype n = complex64 /\
      exists ds s, lookup "noise" mf = Some ds /\ index0 idx ds = Ok s /\
                   data n = data s).
Proof.
  split.
  - intros imgs maps masks ksp n lm E.
    apply load_data_ksp_inv in E
      as (i0 & m0 & s0 & k0 & l0 & n0 & _ & _ & _ & _ & _ & Hn & Hp).
    assert (exists x, h5_read mf "noise" idx float32 = Ok x /\
                      adtype n = adtype x /\ data n = data x) as (x & Ex & Hd & Hx).
    { destruct (has_key "noise" mf).
      - destruct Hn as (x & Ex & ->). exists x. split; [exact Ex|].
        destruct (ndim k0 =? 2).
        + destruct Hp as (_ & _ & _ & _ & _ & Hq). inversion Hq; subst. auto.
        + destruct Hp as (_ & _ & _ & _ & _ & Hq). inversion Hq; subst. auto.
      - subst n0. destruct (ndim k0 =? 2);
          destruct Hp as (_ & _ & _ & _ & _ & Hq); discriminate Hq. }
    rewrite Hd, Hx. split; [exact (h5_read_dtype _ _ _ _ Ex)|].
    exact (h5_read_float32_real _ _ _ Ex).
  - intros imgs maps masks n lm E.
    apply load_data_inv in E as (i0 & m0 & k0 & l0 & n0 & _ & _ & _ & _ & Hn & Hp).
    assert (exists x, h5_read mf "noise" idx complex64 = Ok x /\
                      adtype n = adtype x /\ data n = data x) as (x & Ex & Hd & Hx).
    { destruct (has_key "noise" mf).
      - destruct Hn as (x & Ex & ->). exists x. split; [exact Ex|].
        destruct (ndim k0 =? 2).
        + destruct Hp as (_ & _ & _ & _ & Hq). inversion Hq; subst. auto.
        + destruct Hp as (_ & _ & _ & _ & Hq). inversion Hq; subst. auto.
      - subst n0. destruct (ndim k0 =? 2);
          destruct Hp as (_ & _ & _ & _ & Hq); discriminate Hq. }
    rewrite Hd, Hx. split; [exact (h5_read_dtype _ _ _ _ Ex)|].
    unfold h5_read, h5_get in Ex.
    destruct (lookup "noise" mf) as [ds|]; [|discriminate]. simpl in Ex.
    destruct (index0 idx ds) as [s|] eqn:Es; [|discriminate]. simpl in Ex.
    inversion Ex; subst x. exists ds, s. auto.
Qed.

(** X6. Without a [masks] dataset the two readers part ways: [load_data]
    cannot return (it raises [KeyError] for "masks" once [imgs] and [maps]
    are read), while the masks [load_data_ksp] returns are the whole dataset
    [mask_traj_<idx>], cast to float32, not indexed by [idx], with a leading
    axis when it is 2-D. *)
Theorem trajectory_fallback idx df mf t :
  lookup "masks" mf = None ->
  lookup (mask_traj_key idx) mf = Some t ->
  (forall r, load_data idx df mf <> Ok r) /\
  (forall i0 m0, h5_read df "imgs" idx complex64 = Ok i0 ->
                 h5_read df "maps" idx complex64 = Ok m0 ->
                 load_data idx df mf = Err (KeyError "masks")) /\
  (forall imgs maps masks ksp noise lm,
      load_data_ksp idx df mf = Ok (imgs, maps, masks, ksp, noise, lm) ->
      masks = if ndim t =? 2 then expand_front (astype float32 t) else astype float32 t).
Proof.
  intros Hno Ht. split; [|split].
  - intros [[[[imgs maps] masks] noise] lm] E.
    apply load_data_inv in E as (? & ? & k0 & ? & ? & _ & _ & Ek & _).
    unfold h5_read, h5_get in Ek. rewrite Hno in Ek. discriminate.
  - intros i0 m0 Ei Em. unfold load_data. rewrite Ei, Em. simpl.
    unfold h5_read, h5_get. rewrite Hno. reflexivity.
  - intros imgs maps masks ksp noise lm E.
    apply load_data_ksp_inv in E
      as (? & ? & ? & k0 & ? & ? & _ & _ & _ & Ek & _ & _ & Hp).
    unfold read_masks_ksp, has_key, h5_get in Ek. rewrite Hno, Ht in Ek.
    simpl in Ek. inversion Ek; subst k0; clear Ek.
    change (ndim (astype float32 t)) with (ndim t) in Hp.
    destruct (ndim t =? 2); tauto.
Qed.

Lemma string_of_nat_inj i j :
  NilEmpty.string_of_uint (Nat.to_uint i) = NilEmpty.string_of_uint (Nat.to_uint j) ->
  i = j.
Proof.
  intros E.
  assert (E' : Some (Nat.to_uint i) = Some (Nat.to_uint j)).
  { rewrite <- !NilEmpty.usu. rewrite E. reflexivity. }
  inversion E' as [E''].
  rewrite <- (DecimalNat.Unsigned.of_to i), <- (DecimalNat.Unsigned.of_to j), E''.
  reflexivity.
Qed.

(** X7. The names of the per-index trajectories: distinct indices read
    distinct datasets, and no trajectory name is the name of another
    dataset of the mask store. *)
Theorem mask_traj_key_distinct i j :
  (mask_traj_key i = mask_traj_key j -> i = j) /\
  mask_traj_key i <> "masks"%string /\
  mask_traj_key i <> "loss_masks"%string /\
  mask_traj_key i <> "noise"%string.
Proof.
  unfold mask_traj_key. split; [|repeat split; simpl; discriminate].
  simpl. intros E. inversion E. apply string_of_nat_inj. assumption.
Qed.

Lemma h5_read_out_of_range F k idx d ds n rest :
  lookup k F = Some ds -> shape ds = n :: rest -> n <= idx ->
  h5_read F k idx d = Err IndexError.
Proof.
  intros Hl Hs Hi. unfold h5_read, h5_get, index0. rewrite Hl. simpl. rewrite Hs.
  apply Nat.ltb_ge in Hi. rewrite Hi. reflexivity.
Qed.

Lemma load_arrays_out_of_range self idx ds n rest :
  lookup "imgs" (data_file self) = Some ds -> shape ds = n :: rest -> n <= idx ->
  load_arrays self idx = Err IndexError.
Proof.
  intros Hl Hs Hi. unfold load_arrays, load_data, load_data_ksp.
  rewrite (h5_read_out_of_range _ _ _ Hl Hs Hi).
  destruct (inverse_crime self); reflexivity.
Qed.

Lemma __getitem___out_of_range {H : Helpers} self idx g ds n rest :
  lookup "imgs" (data_file self) = Some ds -> shape ds = n :: rest ->
  n <= effective_idx self idx ->
  __getitem__ self idx g = Err IndexError.
Proof.
  intros Hl Hs Hi. unfold __getitem__, _load_data, bind at 1 2. unfold lift at 1.
  rewrite (load_arrays_out_of_range _ Hl Hs Hi). reflexivity.
Qed.

(** X8. An index at or past the number of stored images raises
    [IndexError], in every mode and before any other dataset is looked at:
    no sample, no exception of another kind, nothing drawn. *)
Theorem index_out_of_range {H : Helpers} self idx g ds n rest :
  lookup "imgs" (data_file self) = Some ds -> shape ds = n :: rest ->
  n <= effective_idx self idx ->
  __getitem__ self idx g = Err IndexError.
Proof. exact (@__getitem___out_of_range H self idx g ds n rest). Qed.

(** X9. The fixed index.  An object built with [data_idx] set has length
    1; the index passed to [__getitem__] is ignored, all indices give the
    same outcome, and the index returned with the sample is [data_idx], not
    the one passed.  [__init__] does not check [data_idx] against the
    store: when it is out of range the object is built all the same and
    every access raises [IndexError]. *)
Theorem fixed_index {H : Helpers} df mf sd nds adj gm sc fs j ic nc self :
  __init__ df mf sd nds adj gm sc fs (Some j) ic nc = Ok self ->
  __len__ self = 1 /\
  (forall idx idx' g, __getitem__ self idx g = __getitem__ self idx' g) /\
  (forall idx g k d g', __getitem__ self idx g = Ok ((k, d), g') -> k = j) /\
  (max_data_sets self <= j -> forall idx g, __getitem__ self idx g = Err IndexError).
Proof.
  unfold __init__, _len, h5_get. intros E.
  destruct (lookup "imgs" df) as [a|] eqn:El; [|discriminate]. simpl in E.
  unfold shape0 in E. destruct (shape a) as [|n rest] eqn:Es; [discriminate|].
  simpl in E. inversion E; subst self; clear E.
  split; [reflexivity|]. split; [reflexivity|]. split.
  - intros idx g k d g' E. apply __getitem___inv in E as (? & ? & ? & ? & ? & ? & _ & -> & _).
    reflexivity.
  - simpl. intros Hj idx g.
    apply (@__getitem___out_of_range H _ idx g a n rest); [exact El | exact Es | exact Hj].
Qed.

(** X10. What [__init__] needs and what it exposes.  It reads the [imgs]
    dataset of the data store only: it raises [KeyError] when the dataset
    is missing and [IndexError] when it has no axis, and is built otherwise,
    whatever the mask store holds.  With no fixed index the length is the
    number of stored images, or the requested count when that is smaller,
    so never more than the store has. *)
Theorem init_outcomes df mf sd nds adj gm sc fs ic nc :
  match lookup "imgs" df with
  | None => __init__ df mf sd nds adj gm sc fs None ic nc = Err (KeyError "imgs")
  | Some a =>
      match shape a with
      | [] => __init__ df mf sd nds adj gm sc fs None ic nc = Err IndexError
      | M :: _ =>
          exists self,
            __init__ df mf sd nds adj gm sc fs None ic nc = Ok self /\
            max_data_sets self = M /\ ds_shape self = shape a /\
            __len__ self = match nds with Some k => Nat.min k M | None => M end /\
            __len__ self <= M
      end
  end.
Proof.
  unfold __init__, _len, h5_get, shape0.
  destruct (lookup "imgs" df) as [a|]; [|reflexivity]. simpl.
  destruct (shape a) as [|M rest] eqn:Es; [reflexivity|]. simpl.
  eexists. split; [reflexivity|]. simpl. unfold __len__; simpl.
  repeat (split; [reflexivity|]).
  destruct nds; [apply Nat.le_min_r | apply Nat.le_refl].
Qed.

(* ================================================================== *)
(** ** The sample returned                                             *)
(* ================================================================== *)

Lemma squeeze0_expand_front a : squeeze0 (expand_front a) = Ok a.
Proof. destruct a; reflexivity. Qed.

Lemma h5_read_astype F k idx d a : h5_read F k idx d = Ok a -> astype d a = a.
Proof.
  unfold h5_read. intros E. rbind_inv E. inversion E; subst. apply astype_idem.
Qed.

Lemma read_masks_ksp_astype idx mf a :
  read_masks_ksp idx mf = Ok a -> astype float32 a = a.
Proof.
  unfold read_masks_ksp. destruct (has_key "masks" mf); [apply h5_read_astype|].
  unfold rmap. intros E. rbind_inv E. inversion E; subst. apply astype_idem.
Qed.

Lemma stored_mask_astype self idx m : stored_mask self idx = Ok m -> astype float32 m = m.
Proof.
  unfold stored_mask. destruct (inverse_crime self);
    [apply h5_read_astype | apply read_masks_ksp_astype].
Qed.

(** The images, masks and loss masks the readers return. *)
Lemma load_arrays_stored self idx imgs maps masks ksp noise lm :
  load_arrays self idx = Ok (imgs, maps, masks, ksp, noise, lm) ->
  exists i0 k0 l0,
    h5_read (data_file self) "imgs" idx complex64 = Ok i0 /\
    stored_mask self idx = Ok k0 /\
    h5_read (masks_file self) "loss_masks" idx float32 = Ok l0 /\
    (if ndim k0 =? 2
     then imgs = expand_front i0 /\ masks = expand_front k0 /\ lm = expand_front l0
     else imgs = i0 /\ masks = k0 /\ lm = l0).
Proof.
  unfold load_arrays, stored_mask. intros E. destruct (inverse_crime self).
  - apply rbind_ok in E as ([[[[i1 m1] k1] n1] l1] & E0 & E).
    inversion E; subst; clear E.
    apply load_data_inv in E0 as (i0 & m0 & k0 & l0 & n0 & Ei & _ & Ek & El & _ & Hp).
    exists i0, k0, l0. repeat (split; [assumption|]).
    destruct (ndim k0 =? 2); tauto.
  - apply rbind_ok in E as ([[[[[i1 m1] k1] s1] n1] l1] & E0 & E).
    inversion E; subst; clear E.
    apply load_data_ksp_inv in E0
      as (i0 & m0 & s0 & k0 & l0 & n0 & Ei & _ & _ & Ek & El & _ & Hp).
    exists i0, k0, l0. repeat (split; [assumption|]).
    destruct (ndim k0 =? 2); tauto.
Qed.

(** X11. Reading adds a batch axis and [__getitem__] squeezes it away:
    when the stored mask is 2-D, the [imgs] and [loss_masks] of the sample
    are the store's entries at the index read (cast to complex64 and
    float32), and so is [masks] unless the object is fully sampled. *)
Theorem stored_arrays_returned {H : Helpers} self idx g i d g' m :
  __getitem__ self idx g = Ok ((i, d), g') ->
  stored_mask self (effective_idx self idx) = Ok m ->
  ndim m = 2 ->
  h5_read (data_file self) "imgs" (effective_idx self idx) complex64 = Ok (s_imgs d) /\
  h5_read (masks_file self) "loss_masks" (effective_idx self idx) float32
  = Ok (s_loss_masks d) /\
  (fully_sampled self = false -> s_masks d = m).
Proof.
  intros E Hm Hrank.
  apply __getitem___inv in E
    as (imgs & maps & masks & out & lm & n & L & _ & N &
        imgs' & maps' & masks' & out' & lm' & S & ->).
  apply _load_data_inv in L as (maps0 & masks0 & ksp & noise & A & _ & Hmk & _).
  apply load_arrays_stored in A as (i0 & k0 & l0 & Ei & Ek & El & Hp).
  rewrite Hm in Ek. inversion Ek; subst k0; clear Ek.
  apply Nat.eqb_eq in Hrank. rewrite Hrank in Hp. destruct Hp as (-> & -> & ->).
  simpl in N. inversion N; subst n. simpl in S.
  destruct S as (Si & _ & Sk & _ & Sl).
  rewrite squeeze0_expand_front in Si, Sl. inversion Si; inversion Sl; subst imgs' lm'.
  simpl. rewrite (h5_read_astype _ _ _ _ Ei), (h5_read_astype _ _ _ _ El).
  split; [exact Ei|]. split; [exact El|].
  intros Hfs. rewrite Hfs in Hmk. subst masks.
  rewrite squeeze0_expand_front in Sk. inversion Sk; subst masks'.
  apply (stored_mask_astype _ _ Hm).
Qed.

(** X12. The shapes of a sample.  Over a well-formed Cartesian store
    ([imgs] [M, Nx, Ny], [maps] [M, C, Nx, Ny], masks [M, Nx, Ny]; the
    k-space needed only when it is read; helpers shape-preserving) a valid
    index returns the index read and a sample with [imgs] and [masks] of
    shape [Nx, Ny], [maps] of shape [C, Nx, Ny], and [out] of shape
    [Nx, Ny] with [adjoint_data] (the coils summed) and [C, Nx, Ny]
    without. *)
Theorem cartesian_sample_shapes {H : Helpers} self M C Nx Ny idx g :
  noncart self = false -> scale_data self = false ->
  cartesian_store self M C Nx Ny ->
  shape_preserving fftmod [1; C; Nx; Ny] ->
  shape_preserving fft2uc [1; C; Nx; Ny] ->
  shape_preserving ifft2uc [1; C; Nx; Ny] ->
  indexes_within self M -> idx < __len__ self ->
  exists d g',
    __getitem__ self idx g = Ok ((effective_idx self idx, d), g') /\
    shape (s_imgs d) = [Nx; Ny] /\ shape (s_maps d) = [C; Nx; Ny] /\
    shape (s_masks d) = [Nx; Ny] /\
    shape (s_out d) = if adjoint_data self then [Nx; Ny] else [C; Nx; Ny].
Proof.
  intros Hnc Hsc Hstore Hmod Hfft Hifft Hw Hidx.
  exact (@__getitem___returns H self C Nx Ny Hnc Hmod Hfft Hifft M idx g
           Hsc Hstore (effective_idx_lt _ _ Hw Hidx)).
Qed.

(* ================================================================== *)
(** ** The noise and the output transform                              *)
(* ================================================================== *)

Lemma complex_randn_state s g a g' :
  complex_randn s g = Ok (a, g') ->
  g' = mkRng (drawn g + prod s + prod s) (tape g).
Proof.
  unfold complex_randn, bind, randn, lift, add. intros E.
  match type of E with
  | context [zip_with ?f ?x ?y] =>
      destruct (zip_with_same_shape f x y) as (r & Er & _); [reflexivity|];
      rewrite Er in E
  end.
  inversion E. reflexivity.
Qed.

Lemma noise_or_randn_state noise s g n g' :
  noise_or_randn noise s g = Ok (n, g') ->
  tape g' = tape g /\
  drawn g' = drawn g + match noise with Some _ => 0 | None => 2 * prod s end.
Proof.
  destruct noise as [x|]; simpl.
  - intros E. apply ret_ok in E as [_ ->]. split; [reflexivity | lia].
  - intros E. apply complex_randn_state in E. subst g'. simpl. split; [reflexivity | lia].
Qed.

Ltac lift_inv E :=
  repeat match type of E with
         | bind (lift _) _ _ = Ok _ =>
             let a := fresh "a" in
             let g := fresh "g" in
             let Ea := fresh "Ea" in
             apply bind_ok in E as (a & g & Ea & E);
             apply lift_ok in Ea as [Ea ->]
         end.

(** X13. What an access takes from numpy's global generator.  When the
    noise is given (read from the store), [_sim_data] draws nothing.  When
    it is not, a returning call has drawn exactly two standard normal
    samples per entry, of the maps in Cartesian mode and of the output in
    non-Cartesian mode, where the samples are drawn although the output
    does not use them. *)
Theorem generator_consumption {H : Helpers} self imgs maps masks noise ksp g out g' :
  _sim_data self imgs maps masks noise ksp g = Ok (out, g') ->
  tape g' = tape g /\
  drawn g' = drawn g +
             match noise with
             | Some _ => 0
             | None => 2 * prod (if noncart self then shape out else shape maps)
             end.
Proof.
  unfold _sim_data. intros E.
  apply bind_ok in E as (m & g1 & Em & E). apply lift_ok in E as [Eo ->].
  unfold sim_measurement in Em. destruct (noncart self) eqn:Hnc.
  - lift_inv Em.
    apply bind_ok in Em as (nz & g2 & En & Em). apply ret_ok in Em as [-> ->].
    unfold sim_output in Eo. rewrite Hnc, !andb_false_r in Eo. inversion Eo; subst out.
    exact (noise_or_randn_state _ _ _ En).
  - apply bind_ok in Em as (nz & g2 & En & Em).
    assert (g1 = g2) as ->.
    { destruct (inverse_crime self && is_none ksp);
        apply lift_ok in Em as [_ ->]; reflexivity. }
    exact (noise_or_randn_state _ _ _ En).
Qed.

Lemma nth_map_seq {A} (f : nat -> A) a n k d :
  k < n -> nth k (map f (seq a n)) d = f (a + k).
Proof.
  intros Hk. rewrite (nth_indep _ d (f 0)) by (rewrite length_map, length_seq; exact Hk).
  rewrite map_nth, seq_nth by exact Hk. reflexivity.
Qed.

Lemma cadd_real_imag (x y : real) : cadd (of_real x) (cmul cI (of_real y)) = mkC x y.
Proof.
  destruct x as [a b], y as [c d].
  unfold cadd, cmul, cI, of_real, rsub, radd, rmul, ropp, r0, r1; simpl.
  f_equal; apply real_eq; ring.
Qed.

(** X14. The noise drawn is [randn + 1j * randn]: a complex128 array of
    the shape asked for, whose entry at row-major position k has the k-th
    sample of a first draw as its real part and the k-th sample of a second
    draw, taken after the whole first one, as its imaginary part; no sample
    is used twice. *)
Theorem drawn_noise_entries s g a g' :
  noise_or_randn None s g = Ok (a, g') ->
  adtype a = complex128 /\ shape a = s /\
  forall idx, in_range s idx ->
    get a idx = mkC (tape g (drawn g + flat_index s idx))
                    (tape g (drawn g + prod s + flat_index s idx)).
Proof.
  simpl. unfold complex_randn, bind, randn, lift, add. intros E.
  match type of E with
  | context [zip_with ?f ?x ?y] =>
      destruct (zip_with_same_shape f x y) as (r & Er & Hs & Hd & Hg); [reflexivity|];
      rewrite Er in E
  end.
  inversion E; subst r g'; clear E. simpl in *.
  split; [exact Hd|]. split; [exact Hs|].
  intros idx Hr. rewrite Hg by exact Hr.
  pose proof (flat_index_lt _ _ Hr) as Hlt.
  unfold get, cscale; simpl. rewrite map_map.
  rewrite !nth_map_seq by exact Hlt. simpl.
  apply cadd_real_imag.
Qed.

Lemma cmul_0_l (z : complex) : cmul (of_real r0) z = c0.
Proof.
  destruct z as [[a b] [c d]].
  unfold cmul, of_real, c0, rsub, radd, rmul, ropp, r0; simpl.
  f_equal; apply real_eq; ring.
Qed.

Lemma tabulate_ext d s f f' :
  (forall idx, f idx = f' idx) -> tabulate d s f = tabulate d s f'.
Proof. intros E. unfold tabulate. f_equal. apply map_ext. exact E. Qed.

Lemma zip_with_scale_zero f a n1 n2 :
  shape n1 = shape n2 -> adtype n1 = adtype n2 ->
  zip_with f a (scale r0 n1) = zip_with f a (scale r0 n2).
Proof.
  intros Hs Hd. unfold zip_with; simpl. rewrite Hs, Hd.
  destruct (broadcast_shapes (shape a) (shape n2)); [|reflexivity].
  f_equal. apply tabulate_ext. intros idx.
  rewrite !get_scale, !cmul_0_l. reflexivity.
Qed.

(** X15. With [stdev = 0] the noise has no part in the result: two noise
    arrays of the same shape and dtype give the same outcome of
    [_sim_data], array for array and exception for exception. *)
Theorem zero_stdev_ignores_noise {H : Helpers} self imgs maps masks n1 n2 ksp g :
  stdev self = r0 ->
  shape n1 = shape n2 -> adtype n1 = adtype n2 ->
  _sim_data self imgs maps masks (Some n1) ksp g
  = _sim_data self imgs maps masks (Some n2) ksp g.
Proof.
  intros Hsd Hs Hd.
  assert (Hz : noise_scale self = r0).
  { unfold noise_scale. rewrite Hsd. apply rmul_0_r. }
  unfold _sim_data, sim_measurement. rewrite Hz.
  destruct (noncart self); [reflexivity|].
  simpl noise_or_randn. unfold bind, ret, lift, add.
  destruct (inverse_crime self && is_none ksp).
  - destruct (expand_axis1 masks), (expand_axis1 imgs); simpl; try reflexivity.
    destruct (mul a0 maps); simpl; [|reflexivity].
    destruct (fft2uc a1); simpl; [|reflexivity].
    rewrite (zip_with_scale_zero cadd a2 n1 n2 Hs Hd). reflexivity.
  - destruct (expect ksp); simpl; [|reflexivity].
    rewrite (zip_with_scale_zero cadd a n1 n2 Hs Hd). reflexivity.
Qed.

Lemma cconj_0 : cconj c0 = c0.
Proof.
  unfold cconj, c0, ropp, r0; simpl. apply f_equal. apply real_eq; ring.
Qed.

Lemma get_conj a idx : get (conj a) idx = cconj (get a idx).
Proof.
  unfold get, conj, amap; simpl. rewrite <- cconj_0 at 1. apply map_nth.
Qed.

(** X16. The adjoint output.  With [adjoint_data], in Cartesian mode, the
    output transform combines the coils: for maps [N, C, Nx, Ny] and G the
    inverse transform [ifft2uc] of the measurement, the result is the
    single-channel array of shape [N, Nx, Ny] with
        out[n, x, y] = sum over c of conj(maps[n, c, x, y]) * G[n, c, x, y]. *)
Theorem adjoint_coil_combination {H : Helpers} self maps meas G N C Nx Ny :
  adjoint_data self = true -> noncart self = false ->
  shape maps = [N; C; Nx; Ny] ->
  ifft2uc meas = Ok G -> shape G = [N; C; Nx; Ny] ->
  exists out,
    sim_output self maps meas = Ok out /\
    shape out = [N; Nx; Ny] /\
    forall n x y, n < N -> x < Nx -> y < Ny ->
      get out [n; x; y]
      = csum (map (fun c => cmul (cconj (get maps [n; c; x; y])) (get G [n; c; x; y]))
                  (seq 0 C)).
Proof.
  intros Hadj Hnc Hm EG HG.
  destruct (zip_with_same_shape cmul (conj maps) G) as (p & Ep & Hp & _ & Gp).
  { simpl. congruence. }
  simpl in Hp, Gp. rewrite Hm in Hp, Gp.
  unfold sim_output. rewrite Hadj, Hnc. simpl. rewrite EG. simpl.
  unfold mul. rewrite Ep. simpl. unfold sum_axis1. rewrite Hp.
  eexists. split; [reflexivity|]. split; [reflexivity|].
  intros n x y Hn Hx Hy.
  rewrite get_tabulate by (simpl; auto).
  f_equal. apply map_ext_in. intros c Hc. apply in_seq in Hc.
  rewrite Gp by (simpl; repeat split; auto; lia).
  rewrite get_conj. reflexivity.
Qed.

Lemma h5_read_has_key F k idx d a : h5_read F k idx d = Ok a -> has_key k F = true.
Proof.
  unfold h5_read, h5_get, has_key. destruct (lookup k F); [reflexivity | discriminate].
Qed.

Lemma read_masks_ksp_has_key idx mf a :
  read_masks_ksp idx mf = Ok a ->
  has_key "masks" mf = true \/ has_key (mask_traj_key idx) mf = true.
Proof.
  unfold read_masks_ksp. destruct (has_key "masks" mf); [auto|].
  unfold rmap, h5_get, has_key. destruct (lookup (mask_traj_key idx) mf); [auto | discriminate].
Qed.

(** X17. The datasets an access needs.  A call that returns a sample has
    found [imgs] and [maps] in the data store and [loss_masks] in the mask
    store; with the inverse crime also [masks]; without it also [ksp], and
    [masks] or the trajectory of the index read.  The inverse-crime mode
    needs no [ksp] and the k-space mode no [masks]. *)
Theorem required_datasets {H : Helpers} self idx g i d g' :
  __getitem__ self idx g = Ok ((i, d), g') ->
  has_key "imgs" (data_file self) = true /\
  has_key "maps" (data_file self) = true /\
  has_key "loss_masks" (masks_file self) = true /\
  (if inverse_crime self
   then has_key "masks" (masks_file self) = true
   else has_key "ksp" (data_file self) = true /\
        (has_key "masks" (masks_file self) = true \/
         has_key (mask_traj_key (effective_idx self idx)) (masks_file self) = true)).
Proof.
  intros E.
  apply __getitem___inv in E as (imgs & maps & masks & out & lm & n & L & _).
  apply _load_data_inv in L as (maps0 & masks0 & ksp & noise & A & _).
  unfold load_arrays in A. destruct (inverse_crime self).
  - apply rbind_ok in A as ([[[[i1 m1] k1] n1] l1] & E0 & _).
    apply load_data_inv in E0 as (? & ? & ? & ? & ? & Ei & Em & Ek & El & _).
    repeat split; eauto using h5_read_has_key.
  - apply rbind_ok in A as ([[[[[i1 m1] k1] s1] n1] l1] & E0 & _).
    apply load_data_ksp_inv in E0 as (? & ? & ? & ? & ? & ? & Ei & Em & Es & Ek & El & _).
    repeat split; eauto using h5_read_has_key, read_masks_ksp_has_key.
Qed.

(** X18. What non-Cartesian mode hands back.  When [_load_data] returns
    in non-Cartesian mode, the inverse crime is off, the maps are the maps
    as read, with no modulation, and [out] is never a 2-D array: a 2-D
    output of the operator has been given a leading axis. *)
Theorem noncart_load_data {H : Helpers} self idx g imgs maps masks out lm g' :
  noncart self = true ->
  _load_data self idx g = Ok ((imgs, maps, masks, out, lm), g') ->
  inverse_crime self = false /\ ndim out <> 2 /\
  exists masks0 ksp noise,
    load_arrays self idx = Ok (imgs, maps, masks0, ksp, noise, lm).
Proof.
  intros Hnc E.
  apply _load_data_inv in E as (maps0 & masks0 & ksp & noise & A & _ & _ & Hex & S & F).
  rewrite Hnc in F. simpl in F. subst maps0.
  assert (Hic : inverse_crime self = false).
  { destruct (inverse_crime self); [specialize (Hex eq_refl); congruence | reflexivity]. }
  split; [exact Hic|]. split; [|eauto].
  pose proof (_sim_data_noncart self imgs maps masks
                noise (if inverse_crime self then None else ksp) g Hnc) as V.
  rewrite S in V. simpl in V. unfold nufft_of_first_trajectory in V.
  symmetry in V. rbind_inv V. inversion V; subst out.
  match goal with
  | |- ndim (if ndim ?o =? 2 then _ else _) <> 2 => destruct (ndim o =? 2) eqn:Hr
  end.
  - rewrite ndim_expand_front. apply Nat.eqb_eq in Hr. lia.
  - apply Nat.eqb_neq in Hr. exact Hr.
Qed.

(* ================================================================== *)
(** ** Concrete runs of the further properties                         *)
(* ================================================================== *)



(** X6: the store of per-index trajectories, read at index 0. *)
Lemma trajectory_fallback_witness :
  lookup "masks" Reference.traj_store = None /\
  (exists t, lookup (mask_traj_key 0) Reference.traj_store = Some t) /\
  load_data 0 Reference.data_store Reference.traj_store = Err (KeyError "masks") /\
  exists r, load_data_ksp 0 Reference.data_store Reference.traj_store = Ok r.
Proof.
  split; [reflexivity|]. split; [eexists; reflexivity|]. split.
  - assert (Ei : exists i0, h5_read Reference.data_store "imgs" 0 complex64 = Ok i0)
      by (eexists; reflexivity).
    assert (Em : exists m0, h5_read Reference.data_store "maps" 0 complex64 = Ok m0)
      by (eexists; reflexivity).
    destruct Ei as [i0 Ei], Em as [m0 Em].
    exact (proj1 (proj2 (@trajectory_fallback 0 Reference.data_store Reference.traj_store
                           _ eq_refl eq_refl)) i0 m0 Ei Em).
  - eexists. reflexivity.
Defined.

(** X8: the reference store has two samples; index 2 is past them. *)
Lemma index_out_of_range_witness :
  let self := Reference.dataset Reference.mask_store true false false true false in
  @__getitem__ Reference.helpers self 2 (Reference.const_rng 1) = Err IndexError.
Proof.
  intros self.
  apply (@index_out_of_range Reference.helpers self 2 (Reference.const_rng 1)
           (Reference.carr [2; 2; 2] [1; 2; 3; 4; 5; 6; 7; 8]%Z) 2 [2; 2]);
    [reflexivity | reflexivity | apply le_n].
Defined.

(** X9: the reference store with the fixed index 5, out of range. *)
Lemma fixed_index_witness :
  let self := mkDataset Reference.data_store Reference.mask_store r1 true false 2
                        [2; 2; 2] false (Some 5) false false false 1 in
  __init__ Reference.data_store Reference.mask_store r1 None true false false false
           (Some 5) false false = Ok self /\
  __len__ self = 1 /\
  @__getitem__ Reference.helpers self 0 (Reference.const_rng 1) = Err IndexError.
Proof.
  intros self. split; [reflexivity|].
  destruct (@fixed_index Reference.helpers Reference.data_store Reference.mask_store
              r1 None true false false false 5 false false self eq_refl)
    as (Hlen & _ & _ & Hout).
  split; [exact Hlen|]. apply Hout. simpl. lia.
Defined.

(** X11: the sample at index 0 of the reference store carries the stored
    image, mask and loss mask. *)
Lemma stored_arrays_returned_witness :
  let self := Reference.dataset Reference.mask_store true false false true false in
  exists i d g',
    @__getitem__ Reference.helpers self 0 (Reference.const_rng 1) = Ok ((i, d), g') /\
    stored_mask self 0 = Ok (s_masks d) /\
    h5_read (data_file self) "imgs" 0 complex64 = Ok (s_imgs d).
Proof.
  intros self.
  assert (E : exists r, @__getitem__ Reference.helpers self 0 (Reference.const_rng 1) = Ok r).
  { vm_compute. eexists. reflexivity. }
  destruct E as [[[i d] g'] E].
  assert (Em : exists m, stored_mask self (effective_idx self 0) = Ok m /\ ndim m = 2).
  { vm_compute. eexists. split; reflexivity. }
  destruct Em as (m & Em & Hr).
  destruct (@stored_arrays_returned Reference.helpers self 0 (Reference.const_rng 1)
              i d g' m E Em Hr) as (Hi & _ & Hk).
  exists i, d, g'. split; [exact E|]. split; [|exact Hi].
  rewrite (Hk eq_refl). exact Em.
Defined.

(** X12: the shapes of the sample at index 1 of the reference store. *)
Lemma cartesian_sample_shapes_witness :
  let self := Reference.dataset Reference.mask_store true false false false false in
  exists d g',
    @__getitem__ Reference.helpers self 1 (Reference.const_rng 1) = Ok ((1, d), g') /\
    shape (s_imgs d) = [2; 2] /\ shape (s_maps d) = [2; 2; 2] /\
    shape (s_masks d) = [2; 2] /\ shape (s_out d) = [2; 2].
Proof.
  intros self.
  exact (@cartesian_sample_shapes Reference.helpers self 2 2 2 2 1 (Reference.const_rng 1)
           eq_refl eq_refl (reference_store false) reference_fftmod_2x2
           (reference_dft2uc_2x2 false) (reference_dft2uc_2x2 true)
           (le_n 2) (le_n 2)).
Defined.

(** X13: an inverse-crime simulation with no noise given draws 2 * 8
    samples. *)
Lemma generator_consumption_witness :
  let self := Reference.dataset Reference.mask_store true false false true false in
  exists out g',
    @_sim_data Reference.helpers self Reference.imgs_1 Reference.maps_1
               Reference.masks_1 None None (Reference.const_rng 1) = Ok (out, g') /\
    drawn g' = 16.
Proof.
  intros self.
  assert (E : exists r, @_sim_data Reference.helpers self Reference.imgs_1
                          Reference.maps_1 Reference.masks_1 None None
                          (Reference.const_rng 1) = Ok r).
  { vm_compute. eexists. reflexivity. }
  destruct E as [[out g'] E].
  exists out, g'. split; [exact E|].
  exact (proj2 (@generator_consumption Reference.helpers self _ _ _ _ _ _ _ _ E)).
Defined.

(** X14: the entry (1, 0) of a 2 x 2 draw takes the samples 2 and 6. *)
Lemma drawn_noise_entries_witness :
  let g := mkRng 0 (fun k => of_Z (Z.of_nat k)) in
  exists a g',
    noise_or_randn None [2; 2] g = Ok (a, g') /\
    get a [1; 0] = mkC (of_Z 2) (of_Z 6).
Proof.
  intros g.
  assert (E : exists r, noise_or_randn None [2; 2] g = Ok r).
  { vm_compute. eexists. reflexivity. }
  destruct E as [[a g'] E].
  exists a, g'. split; [exact E|].
  destruct (@drawn_noise_entries [2; 2] g a g' E) as (_ & _ & Hg).
  rewrite (Hg [1; 0]) by (simpl; lia). reflexivity.
Defined.

(** X15: no noise level, two different noise arrays, one outcome. *)
Lemma zero_stdev_ignores_noise_witness :
  let self := with_stdev r0
                (Reference.dataset Reference.mask_store true false false true false) in
  let n1 := Reference.carr [1; 2; 2; 2] [1; 2; 3; 4; 5; 6; 7; 8]%Z in
  let n2 := Reference.carr [1; 2; 2; 2] [0; 0; 0; 0; 0; 0; 0; 0]%Z in
  stdev self = r0 /\ n1 <> n2 /\
  @_sim_data Reference.helpers self Reference.imgs_1 Reference.maps_1 Reference.masks_1
             (Some n1) None (Reference.const_rng 1)
  = @_sim_data Reference.helpers self Reference.imgs_1 Reference.maps_1 Reference.masks_1
               (Some n2) None (Reference.const_rng 1).
Proof.
  intros self n1 n2. split; [reflexivity|].
  split; [apply array_eqb_neq; vm_compute; reflexivity|].
  exact (@zero_stdev_ignores_noise Reference.helpers self Reference.imgs_1
           Reference.maps_1 Reference.masks_1 n1 n2 None (Reference.const_rng 1)
           eq_refl eq_refl eq_refl).
Defined.

(** X16: the coil combination of one sample of two coils. *)
Lemma adjoint_coil_combination_witness :
  let self := Reference.dataset Reference.mask_store true false false true false in
  exists out,
    @sim_output Reference.helpers self Reference.maps_1 Reference.ksp_1 = Ok out /\
    shape out = [1; 2; 2].
Proof.
  intros self.
  destruct (reference_dft2uc_2x2 true Reference.ksp_1 eq_refl) as (G & EG & HG).
  destruct (@adjoint_coil_combination Reference.helpers self Reference.maps_1
              Reference.ksp_1 G 1 2 2 2 eq_refl eq_refl eq_refl EG HG)
    as (out & Eo & Ho & _).
  exists out. auto.
Defined.

(** X17: the sample at index 0 of the reference store, k-space mode. *)
Lemma required_datasets_witness :
  let self := Reference.dataset Reference.mask_store true false false false false in
  (exists r, @__getitem__ Reference.helpers self 0 (Reference.const_rng 1) = Ok r) /\
  has_key "ksp" (data_file self) = true.
Proof.
  intros self.
  assert (E : exists r, @__getitem__ Reference.helpers self 0 (Reference.const_rng 1) = Ok r).
  { vm_compute. eexists. reflexivity. }
  split; [exact E|]. destruct E as [[[i d] g'] E].
  destruct (@required_datasets Reference.helpers self 0 (Reference.const_rng 1) i d g' E)
    as (_ & _ & _ & Hk).
  exact (proj1 Hk).
Defined.

(** X18: the store of trajectories read in non-Cartesian mode. *)
Lemma noncart_load_data_witness :
  let self := Reference.dataset Reference.traj_store false false false false true in
  noncart self = true /\
  exists imgs maps masks out lm g',
    @_load_data Reference.helpers self 0 (Reference.const_rng 1)
    = Ok ((imgs, maps, masks, out, lm), g') /\
    ndim out <> 2.
Proof.
  intros self. split; [reflexivity|].
  assert (E : exists r, @_load_data Reference.helpers self 0 (Reference.const_rng 1) = Ok r).
  { vm_compute. eexists. reflexivity. }
  destruct E as [[[[[[imgs maps] masks] out] lm] g'] E].
  exists imgs, maps, masks, out, lm, g'. split; [exact E|].
  exact (proj1 (proj2 (@noncart_load_data Reference.helpers self 0 (Reference.const_rng 1)
                         imgs maps masks out lm g' eq_refl E))).
Defined.

(** X4: the reference store read at index 1: 2-D masks, every array with
    a leading axis of length 1. *)
Lemma readers_batch_axis_witness :
  exists imgs maps masks ksp noise lm,
    load_data_ksp 1 Reference.data_store Reference.noise_store
    = Ok (imgs, maps, masks, ksp, noise, lm) /\
    ndim masks <> 2.
Proof.
  assert (E : exists r, load_data_ksp 1 Reference.data_store Reference.noise_store = Ok r).
  { eexists. reflexivity. }
  destruct E as [[[[[[imgs maps] masks] ksp] noise] lm] E].
  exists imgs, maps, masks, ksp, noise, lm. split; [exact E|].
  exact (proj1 (proj2 (readers_batch_axis 1 Reference.data_store Reference.noise_store)
                      imgs maps masks ksp noise lm E)).
Defined.

(** X5: the stored noise of the reference store, read in k-space mode. *)
Lemma stored_noise_cast_witness :
  exists imgs maps masks ksp n lm,
    load_data_ksp 1 Reference.data_store Reference.noise_store
    = Ok (imgs, maps, masks, ksp, Some n, lm) /\
    adtype n = float32.
Proof.
  assert (E : exists imgs maps masks ksp n lm,
             load_data_ksp 1 Reference.data_store Reference.noise_store
             = Ok (imgs, maps, masks, ksp, Some n, lm)).
  { do 6 eexists. reflexivity. }
  destruct E as (imgs & maps & masks & ksp & n & lm & E).
  exists imgs, maps, masks, ksp, n, lm. split; [exact E|].
  exact (proj1 (proj1 (stored_noise_cast 1 Reference.data_store Reference.noise_store)
                      imgs maps masks ksp n lm E)).
Defined.
